(** * AdSphere campaign creation

  A shallow embedding of the campaign-creation vertical slice:

  - [State]    : features/campaign/domain/campaign.state.ts
  - [Machine]  : features/campaign/domain/campaign.machine.ts
  - [Rules]    : features/campaign/domain/campaign.rules.ts
  - [Schema]   : features/campaign/domain/campaign.schema.ts (HH:mm part)
  - [UseCase]  : features/campaign/application/validateCampaign.usecase.ts

  JavaScript strings are modelled as [string] (their UTF-8 bytes), the
  integral numbers the code computes with (minutes, epoch milliseconds) as
  [option Z] with [None] for NaN, and [sizeInMb] as a binary64 [float]. *)

From Stdlib Require Import PrimFloat.
From Stdlib Require Import Bool Ascii String List ZArith Lia.
From Stdlib Require Import Permutation Sorted.
Import ListNotations.

Set Warnings "-inexact-float".

Local Open Scope string_scope.

(** ** Integral JavaScript numbers, with NaN *)

Module Num.

(** [None] is NaN; [Some z] is the integer [z]. *)
Definition number : Type := option Z.

Definition NaN : number := None.

Definition isNaN (x : number) : bool :=
  match x with None => true | Some _ => false end.

(** Arithmetic propagates NaN. *)
Definition lift2 (f : Z -> Z -> Z) (a b : number) : number :=
  match a, b with
  | Some x, Some y => Some (f x y)
  | _, _ => None
  end.

Definition add : number -> number -> number := lift2 Z.add.
Definition sub : number -> number -> number := lift2 Z.sub.
Definition mul : number -> number -> number := lift2 Z.mul.

(** Every comparison with NaN is false. *)
Definition cmp2 (f : Z -> Z -> bool) (a b : number) : bool :=
  match a, b with
  | Some x, Some y => f x y
  | _, _ => false
  end.

Definition gt : number -> number -> bool := cmp2 Z.gtb.
Definition ge : number -> number -> bool := cmp2 Z.geb.

End Num.

(** ** The string builtins the code calls *)

Module Js.

Definition code (c : ascii) : N := N_of_ascii c.

(** The double-quote character, for the message templates. *)
Definition dq : string := String "034"%char EmptyString.

(** *** String.prototype.trim

    White space and line terminators of ECMAScript, as UTF-8 byte
    sequences: TAB LF VT FF CR SP, U+00A0, U+1680, U+2000..U+200A, U+2028,
    U+2029, U+202F, U+205F, U+3000, U+FEFF. *)

Definition ws1 (a : N) : bool :=
  ((9 <=? a) && (a <=? 13) || (a =? 32))%N.

Definition ws2 (a b : N) : bool :=
  ((a =? 194) && (b =? 160))%N.

Definition ws3 (a b c : N) : bool :=
  ((a =? 225) && (b =? 154) && (c =? 128)
   || (a =? 226) && (b =? 128)
      && ((128 <=? c) && (c <=? 138) || (c =? 168) || (c =? 169) || (c =? 175))
   || (a =? 226) && (b =? 129) && (c =? 159)
   || (a =? 227) && (b =? 128) && (c =? 128)
   || (a =? 239) && (b =? 187) && (c =? 191))%N.

(** [strip fwd l] drops leading white space from [l]; with [fwd = false]
    the list is a reversed string and each sequence is read backwards. *)
Fixpoint strip (fwd : bool) (l : list ascii) : list ascii :=
  match l with
  | a :: l1 =>
      if ws1 (code a) then strip fwd l1 else
      match l1 with
      | b :: l2 =>
          if (if fwd then ws2 (code a) (code b) else ws2 (code b) (code a))
          then strip fwd l2 else
          match l2 with
          | c :: l3 =>
              if (if fwd then ws3 (code a) (code b) (code c)
                  else ws3 (code c) (code b) (code a))
              then strip fwd l3 else l
          | [] => l
          end
      | [] => l
      end
  | [] => []
  end.

Definition trim (s : string) : string :=
  string_of_list_ascii
    (rev (strip false (rev (strip true (list_ascii_of_string s))))).

(** *** parseInt(s, 10)

    The value of the longest prefix of decimal digits, NaN when that prefix
    is empty.  The builtin also skips leading white space and reads a sign;
    the callers here only pass two-digit captures. *)

Definition digit (c : ascii) : option Z :=
  if ((48 <=? code c) && (code c <=? 57))%N
  then Some (Z.of_N (code c) - 48)%Z else None.

(** The value of a character that is a decimal digit. *)
Definition digitValue (c : ascii) : Z := (Z.of_N (code c) - 48)%Z.

(** The string of two characters. *)
Definition two (a b : ascii) : string := String a (String b EmptyString).

Fixpoint digits (acc : Z) (s : string) : Z :=
  match s with
  | String c s' =>
      match digit c with
      | Some v => digits (10 * acc + v)%Z s'
      | None => acc
      end
  | EmptyString => acc
  end.

Definition parseInt (s : string) : Num.number :=
  match s with
  | String c _ =>
      match digit c with
      | Some _ => Some (digits 0%Z s)
      | None => Num.NaN
      end
  | EmptyString => Num.NaN
  end.

End Js.

(** ** Anchored regular expressions with capture groups *)

Module Regex.

Inductive regex : Type :=
| Chr (c : ascii)               (* a literal character *)
| Rng (lo hi : ascii)           (* a class [lo-hi]; \d is [0-9] *)
| Cat (r1 r2 : regex)           (* r1 r2 *)
| Alt (r1 r2 : regex)           (* r1|r2 *)
| Grp (r : regex).              (* ( r ) *)

(** One way of matching a prefix: the text consumed, the groups closed so
    far (in order) and the text left. *)
Record path : Type :=
  { consumed : string; groups : list string; rest : string }.

Definition in_range (lo hi c : ascii) : bool :=
  ((Js.code lo <=? Js.code c) && (Js.code c <=? Js.code hi))%N.

Definition one (p : ascii -> bool) (s : string) : list path :=
  match s with
  | String c s' =>
      if p c then [ {| consumed := String c EmptyString;
                       groups := []; rest := s' |} ]
      else []
  | EmptyString => []
  end.

(** All the ways [r] matches a prefix of [s], in backtracking order. *)
Fixpoint run (r : regex) (s : string) : list path :=
  match r with
  | Chr c => one (Ascii.eqb c) s
  | Rng lo hi => one (in_range lo hi) s
  | Cat r1 r2 =>
      flat_map
        (fun p1 =>
           map (fun p2 =>
                  {| consumed := consumed p1 ++ consumed p2;
                     groups := groups p1 ++ groups p2;
                     rest := rest p2 |})
               (run r2 (rest p1)))
        (run r1 s)
  | Alt r1 r2 => run r1 s ++ run r2 s
  | Grp r1 =>
      map (fun p => {| consumed := consumed p;
                       groups := groups p ++ [consumed p];
                       rest := rest p |})
          (run r1 s)
  end.

Definition at_end (p : path) : bool :=
  match rest p with EmptyString => true | String _ _ => false end.

(** [/^r$/.exec(s)]: the first path that reaches the end of the input;
    the result is [match[1]], [match[2]], ... *)
Definition exec (r : regex) (s : string) : option (list string) :=
  match filter at_end (run r s) with
  | p :: _ => Some (groups p)
  | [] => None
  end.

(** [/^r$/.test(s)] *)
Definition test (r : regex) (s : string) : bool :=
  match exec r s with Some _ => true | None => false end.

Definition digit : regex := Rng "0" "9".            (* \d *)
Definition digit2 : regex := Cat digit digit.       (* \d{2} *)

End Regex.

(** ** campaign.state.ts *)

Module State.

Record TimeSlot : Type :=
  { startTime : string;       (* HH:mm, 24-hour format *)
    endTime : string }.

(** [type] is ["image" | "video"] for the type checker; at run time it is
    the string the caller supplied, which is what the media rule guards. *)
Record MediaAsset : Type :=
  { url : string;
    type : string;
    sizeInMb : float }.

(** [screenIds] is [[string, ...string[]]] for the type checker and an
    array at run time; the screen rule guards the empty one. *)
Record CampaignDraft : Type :=
  { name : string;
    startDate : string;
    endDate : string;
    screenIds : list string;
    timeSlots : list TimeSlot;
    mediaAsset : MediaAsset }.

Inductive ValidationErrorCode : Type :=
| EMPTY_NAME
| INVALID_DATE_RANGE
| INVALID_DATE_FORMAT
| OVERLAPPING_TIME_SLOTS
| EMPTY_SCREEN_SELECTION
| MEDIA_SIZE_EXCEEDS_LIMIT
| MEDIA_TYPE_NOT_ALLOWED
| INVALID_TIME_FORMAT.

Record ValidationError : Type :=
  { code : ValidationErrorCode;
    message : string }.

(** The [message] of a system error. *)
Record SystemError : Type :=
  { sysMessage : string }.

(** The discriminated union on [status].  The [errors] of [Invalid] are
    [[ValidationError, ...ValidationError[]]] for the type checker and an
    array at run time. *)
Inductive CampaignCreationState : Type :=
| Idle
| Editing (draft : CampaignDraft)
| Validating (draft : CampaignDraft)
| Invalid (draft : CampaignDraft) (errors : list ValidationError)
| ConflictDetected (draft : CampaignDraft)
| ReadyToPublish (draft : CampaignDraft)
| Published (campaignId : string)
| Error (error : SystemError).

Inductive Status : Type :=
| idle | editing | validating | invalid | conflict_detected
| ready_to_publish | published | error.

Definition status (s : CampaignCreationState) : Status :=
  match s with
  | Idle => idle
  | Editing _ => editing
  | Validating _ => validating
  | Invalid _ _ => invalid
  | ConflictDetected _ => conflict_detected
  | ReadyToPublish _ => ready_to_publish
  | Published _ => published
  | Error _ => error
  end.

(** The codes of an error list, in order. *)
Definition codes (l : list ValidationError) : list ValidationErrorCode :=
  map code l.

End State.

(** ** campaign.validation.ts *)

Module Validation.
Import State.

Inductive CampaignValidationResult : Type :=
| invalid (errors : list ValidationError)
| conflict
| valid.

End Validation.

(** ** campaign.machine.ts *)

Module Machine.
Import State.

Inductive CampaignEvent : Type :=
| START_CREATION
| UPDATE_DRAFT (draft : CampaignDraft)
| VALIDATE
| VALIDATION_RESULT (result : Validation.CampaignValidationResult)
| PUBLISH (campaignId : string)
| SYSTEM_ERROR (error : SystemError).

(** The draft [idle] hands to [editing] on START_CREATION. *)
Definition emptyDraft : CampaignDraft :=
  {| name := EmptyString;
     startDate := EmptyString;
     endDate := EmptyString;
     screenIds := [EmptyString];
     timeSlots := [];
     mediaAsset := {| url := EmptyString; type := "image";
                      sizeInMb := 0%float |} |}.

Definition transition (state : CampaignCreationState) (event : CampaignEvent)
  : CampaignCreationState :=
  match event with
  | SYSTEM_ERROR e => Error e        (* valid from any state *)
  | _ =>
    match state with
    | Idle =>
        match event with
        | START_CREATION => Editing emptyDraft
        | _ => state
        end
    | Editing draft =>
        match event with
        | UPDATE_DRAFT draft' => Editing draft'
        | VALIDATE => Validating draft
        | _ => state
        end
    | Validating draft =>
        match event with
        | VALIDATION_RESULT (Validation.invalid errors) => Invalid draft errors
        | VALIDATION_RESULT Validation.conflict => ConflictDetected draft
        | VALIDATION_RESULT Validation.valid => ReadyToPublish draft
        | _ => state
        end
    | Invalid _ _ =>
        match event with
        | UPDATE_DRAFT draft' => Editing draft'
        | _ => state
        end
    | ConflictDetected _ =>
        match event with
        | UPDATE_DRAFT draft' => Editing draft'
        | _ => state
        end
    | ReadyToPublish _ =>
        match event with
        | PUBLISH campaignId => Published campaignId
        | _ => state
        end
    | Published _ | Error _ => state   (* terminal states *)
    end
  end.

End Machine.

(** ** campaign.rules.ts *)

Module Rules.
Import State Regex.

Definition makeError (code : ValidationErrorCode) (message : string)
  : ValidationError :=
  {| code := code; message := message |}.

(** [/^(\d{2}):(\d{2})$/] *)
Definition hhmm : regex :=
  Cat (Cat (Grp digit2) (Chr ":")) (Grp digit2).

(** Total minutes since midnight, NaN if the format is invalid. *)
Definition parseHHmm (value : string) : Num.number :=
  match exec hhmm value with
  | None => Num.NaN
  | Some m =>
      let hours := Js.parseInt (nth 0 m EmptyString) in
      let minutes := Js.parseInt (nth 1 m EmptyString) in
      if Num.gt hours (Some 23%Z) || Num.gt minutes (Some 59%Z) then Num.NaN
      else Num.add (Num.mul hours (Some 60%Z)) minutes
  end.

(** Rule 1: name must not be empty. *)
Definition validateName (draft : CampaignDraft) : list ValidationError :=
  if (String.length (Js.trim (name draft)) =? 0)%nat
  then [makeError EMPTY_NAME "Campaign name must not be empty."]
  else [].

(** Rule 3: screenIds must contain at least 1 item. *)
Definition validateScreenIds (draft : CampaignDraft) : list ValidationError :=
  if (List.length (screenIds draft) =? 0)%nat
  then [makeError EMPTY_SCREEN_SELECTION
          "At least one screen must be selected."]
  else [].

(** Rule 4, first loop: format and internal order of one slot. *)
Definition slotErrors (slot : TimeSlot) : list ValidationError :=
  let start := parseHHmm (startTime slot) in
  let end_ := parseHHmm (endTime slot) in
  if Num.isNaN start || Num.isNaN end_ then
    [makeError INVALID_TIME_FORMAT
       ("Time slot " ++ Js.dq ++ startTime slot ++ " – " ++ endTime slot
          ++ Js.dq ++ " contains an invalid HH:mm value.")]
  else if Num.ge start end_ then
    [makeError INVALID_TIME_FORMAT
       ("Time slot startTime " ++ Js.dq ++ startTime slot ++ Js.dq
          ++ " must be before endTime " ++ Js.dq ++ endTime slot ++ Js.dq
          ++ ".")]
  else [].

(** The comparator handed to [sort]. *)
Definition byStart (a b : TimeSlot) : Num.number :=
  Num.sub (parseHHmm (startTime a)) (parseHHmm (startTime b)).

(** [Array.prototype.sort] is stable: [a] moves behind [b] only when the
    comparator is positive (a NaN result counts as zero). *)
Fixpoint insertSlot (a : TimeSlot) (l : list TimeSlot) : list TimeSlot :=
  match l with
  | b :: l' =>
      if Num.gt (byStart a b) (Some 0%Z) then b :: insertSlot a l'
      else a :: l
  | [] => [a]
  end.

Definition sortSlots (l : list TimeSlot) : list TimeSlot :=
  fold_right insertSlot [] l.

(** Rule 4, second loop: the scan of the adjacent pairs of [sorted]. *)
Fixpoint overlapErrors (sorted : list TimeSlot) : list ValidationError :=
  match sorted with
  | cur :: ((next :: _) as tl) =>
      let currentEnd := parseHHmm (endTime cur) in
      let nextStart := parseHHmm (startTime next) in
      ((if Num.gt currentEnd nextStart then
         [makeError OVERLAPPING_TIME_SLOTS
            ("Time slot " ++ Js.dq ++ startTime cur ++ "–" ++ endTime cur
               ++ Js.dq ++ " overlaps with " ++ Js.dq ++ startTime next
               ++ "–" ++ endTime next ++ Js.dq ++ ".")]
       else [])
      ++ overlapErrors tl)%list
  | _ => []
  end.

(** Rule 4: timeSlots must not overlap; also validates the HH:mm format and
    that startTime < endTime per slot. *)
Definition validateTimeSlots (draft : CampaignDraft) : list ValidationError :=
  let errors := flat_map slotErrors (timeSlots draft) in
  if (List.length errors =? 0)%nat
  then (errors ++ overlapErrors (sortSlots (timeSlots draft)))%list
  else errors.

Section Host.

(** [Date.parse]: NaN, or the integral number of milliseconds since the
    epoch. *)
Variable Date_parse : string -> Num.number.

(** The conversion of a number to a string in a template literal. *)
Variable Number_toString : float -> string.

(** Rule 2: startDate must be before endDate. *)
Definition validateDateRange (draft : CampaignDraft) : list ValidationError :=
  let start := Date_parse (startDate draft) in
  let end_ := Date_parse (endDate draft) in
  if Num.isNaN start || Num.isNaN end_ then
    [makeError INVALID_DATE_FORMAT
       "startDate and endDate must be valid ISO 8601 strings."]
  else if Num.ge start end_ then
    [makeError INVALID_DATE_RANGE "startDate must be before endDate."]
  else [].

(** Rule 5: mediaAsset must pass validation. *)
Definition validateMediaAsset (draft : CampaignDraft) : list ValidationError :=
  let asset := mediaAsset draft in
  let errors := [] in
  let errors :=
    if PrimFloat.ltb 50%float (sizeInMb asset) then
      (errors ++
       [makeError MEDIA_SIZE_EXCEEDS_LIMIT
          ("Media asset size " ++ Number_toString (sizeInMb asset)
             ++ " MB exceeds the 50 MB limit.")])%list
    else errors in
  let errors :=
    if negb (type asset =? "image") && negb (type asset =? "video") then
      (errors ++
       [makeError MEDIA_TYPE_NOT_ALLOWED
          ("Media type " ++ Js.dq ++ type asset ++ Js.dq
             ++ " is not allowed. Must be " ++ Js.dq ++ "image" ++ Js.dq
             ++ " or " ++ Js.dq ++ "video" ++ Js.dq ++ ".")])%list
    else errors in
  errors.

(** Validates all business rules for a CampaignDraft. *)
Definition validateCampaignDraft (draft : CampaignDraft)
  : list ValidationError :=
  (validateName draft
   ++ validateDateRange draft
   ++ validateScreenIds draft
   ++ validateTimeSlots draft
   ++ validateMediaAsset draft)%list.

End Host.

End Rules.

(** ** campaign.schema.ts: the time-slot schema *)

Module Schema.
Import State Regex.

(** [/^([01]\d|2[0-3]):([0-5]\d)$/] *)
Definition hhmm : regex :=
  Cat (Cat (Grp (Alt (Cat (Rng "0" "1") digit) (Cat (Chr "2") (Rng "0" "3"))))
           (Chr ":"))
      (Grp (Cat (Rng "0" "5") digit)).

(** The schema's own parser: no range check on hours and minutes. *)
Definition parseHHmm (value : string) : Num.number :=
  match exec Rules.hhmm value with
  | None => Num.NaN
  | Some m =>
      let hours := Js.parseInt (nth 0 m EmptyString) in
      let minutes := Js.parseInt (nth 1 m EmptyString) in
      Num.add (Num.mul hours (Some 60%Z)) minutes
  end.

(** [z.string().regex(...)] on a time field. *)
Definition timeField (value : string) : bool := test hhmm value.

(** [TimeSlotSchema]: both fields pass the regex and the refinement holds. *)
Definition TimeSlotSchema (slot : TimeSlot) : bool :=
  timeField (startTime slot) && timeField (endTime slot)
  && (let start := parseHHmm (startTime slot) in
      let end_ := parseHHmm (endTime slot) in
      negb (Num.isNaN start) && negb (Num.isNaN end_) && Num.gt end_ start).

End Schema.

(** ** validateCampaign.usecase.ts *)

Module UseCase.
Import State Machine.

Section Host.

Variable Date_parse : string -> Num.number.
Variable Number_toString : float -> string.

Definition validateCampaign (state : CampaignCreationState)
  : CampaignCreationState :=
  match state with
  | Editing _ =>
      (* Step 1: move to "validating". *)
      let validatingState := transition state VALIDATE in
      match validatingState with
      | Validating draft =>
          (* Step 2: run business-rule validation. *)
          let errors :=
            Rules.validateCampaignDraft Date_parse Number_toString draft in
          (* Step 3: build CampaignValidationResult. *)
          let result :=
            match errors with
            | e0 :: _ => Validation.invalid (e0 :: skipn 1 errors)
            | [] => Validation.valid
            end in
          (* Step 4: dispatch VALIDATION_RESULT. *)
          transition validatingState (VALIDATION_RESULT result)
      | _ => state
      end
  | _ => state
  end.

End Host.

End UseCase.

(** ** The transition table of the specification *)

Module Table.
Import State Machine.

(** The successor status the table lists for a status and an event, row by
    row; [None] where the table lists no transition. *)
Definition table (from : Status) (event : CampaignEvent) : option Status :=
  match event with
  | SYSTEM_ERROR _ => Some error
  | _ =>
      match from, event with
      | idle, START_CREATION => Some editing
      | editing, UPDATE_DRAFT _ => Some editing
      | editing, VALIDATE => Some validating
      | validating, VALIDATION_RESULT (Validation.invalid _) =>
          Some State.invalid
      | validating, VALIDATION_RESULT Validation.conflict =>
          Some conflict_detected
      | validating, VALIDATION_RESULT Validation.valid =>
          Some ready_to_publish
      | State.invalid, UPDATE_DRAFT _ => Some editing
      | conflict_detected, UPDATE_DRAFT _ => Some editing
      | ready_to_publish, PUBLISH _ => Some published
      | _, _ => None
      end
  end.

End Table.

(** ** Runs of the machine *)

Module Run.
Import State Machine.

(** What a caller holding a state can do: dispatch an event, or call the
    validate use case. *)
Inductive action : Type :=
| Dispatch (event : CampaignEvent)
| Validate.

(** An event as the type checker admits it: the errors of an [invalid] result
    are [[ValidationError, ...ValidationError[]]]. *)
Definition wellTyped (a : action) : bool :=
  match a with
  | Dispatch (VALIDATION_RESULT (Validation.invalid errors)) =>
      (0 <? List.length errors)%nat
  | _ => true
  end.

(** The invariant on states: an [invalid] state carries an error. *)
Definition invalidHasErrors (s : CampaignCreationState) : bool :=
  match s with
  | Invalid _ errors => (0 <? List.length errors)%nat
  | _ => true
  end.

Section Host.

Variable Date_parse : string -> Num.number.
Variable Number_toString : float -> string.

Definition perform (s : CampaignCreationState) (a : action)
  : CampaignCreationState :=
  match a with
  | Dispatch event => transition s event
  | Validate => UseCase.validateCampaign Date_parse Number_toString s
  end.

Definition run (s : CampaignCreationState) (l : list action)
  : CampaignCreationState :=
  fold_left perform l s.

End Host.

End Run.

(** ** Reading an error list *)

Module Codes.
Import State.

(** The two codes of the date rule. *)
Definition isDateCode (c : ValidationErrorCode) : bool :=
  match c with
  | INVALID_DATE_FORMAT | INVALID_DATE_RANGE => true
  | _ => false
  end.

(** The codes of the date rule in an error list, in order. *)
Definition dateCodes (l : list ValidationError) : list ValidationErrorCode :=
  filter isDateCode (codes l).

(** [sizeInMb > 50] on binary64 numbers. *)
Definition exceedsLimit (size : float) : bool := PrimFloat.ltb 50%float size.

End Codes.

(** ** Reading a list of time slots *)

Module Slots.
Import State.

Definition startOf (s : TimeSlot) : Num.number :=
  Rules.parseHHmm (startTime s).

Definition endOf (s : TimeSlot) : Num.number :=
  Rules.parseHHmm (endTime s).

(** A well-formed slot: two valid HH:mm times, the start before the end. *)
Definition wellFormed (s : TimeSlot) : bool :=
  match startOf s, endOf s with
  | Some x, Some y => (x <? y)%Z
  | _, _ => false
  end.

(** Ascending order of start times. *)
Definition startsNoLater (a b : TimeSlot) : Prop :=
  match startOf a, startOf b with
  | Some x, Some y => (x <= y)%Z
  | _, _ => False
  end.

Definition sortedByStart (l : list TimeSlot) : Prop :=
  Sorted startsNoLater l.

(** The end time of [a] is strictly greater than the start time of [b]. *)
Definition runsInto (a b : TimeSlot) : bool :=
  match endOf a, startOf b with
  | Some x, Some y => (y <? x)%Z
  | _, _ => false
  end.

(** Some adjacent pair of [l] has the earlier slot run into the later. *)
Definition adjacentOverlap (l : list TimeSlot) : Prop :=
  exists l1 a b l2, l = (l1 ++ a :: b :: l2)%list /\ runsInto a b = true.

Fixpoint hasAdjacentOverlap (l : list TimeSlot) : bool :=
  match l with
  | a :: ((b :: _) as tl) => runsInto a b || hasAdjacentOverlap tl
  | _ => false
  end.

(** Minutes since midnight, for slots whose times parse. *)
Definition minutes (x : Num.number) : Z :=
  match x with Some z => z | None => 0%Z end.

(** Two slots share some time. *)
Definition intersect (a b : TimeSlot) : Prop :=
  (minutes (startOf a) < minutes (endOf b)
   /\ minutes (startOf b) < minutes (endOf a))%Z.

(** No two slots of [l] share any time. *)
Definition apart (l : list TimeSlot) : Prop :=
  ForallOrdPairs (fun a b => ~ intersect a b) l.

End Slots.

(** ** campaign.schema.ts: the refinements of [CampaignSchema] *)

Module SchemaRefine.
Import State.

(** The comparator of the schema's sort. *)
Definition byStart (a b : TimeSlot) : Num.number :=
  Num.sub (Schema.parseHHmm (startTime a)) (Schema.parseHHmm (startTime b)).

Fixpoint insertSlot (a : TimeSlot) (l : list TimeSlot) : list TimeSlot :=
  match l with
  | b :: l' =>
      if Num.gt (byStart a b) (Some 0%Z) then b :: insertSlot a l'
      else a :: l
  | [] => [a]
  end.

Definition sortSlots (l : list TimeSlot) : list TimeSlot :=
  fold_right insertSlot [] l.

(** The filter in front of the sort: both times parse. *)
Definition parses (s : TimeSlot) : bool :=
  negb (Num.isNaN (Schema.parseHHmm (startTime s)))
  && negb (Num.isNaN (Schema.parseHHmm (endTime s))).

(** The loop over the adjacent pairs: [false] at the first overlap. *)
Fixpoint scan (sorted : list TimeSlot) : bool :=
  match sorted with
  | cur :: ((next :: _) as tl) =>
      let currentEnd := Schema.parseHHmm (endTime cur) in
      let nextStart := Schema.parseHHmm (startTime next) in
      if Num.gt currentEnd nextStart then false else scan tl
  | _ => true
  end.

(** The refinement of [timeSlots]: "Time slots must not overlap". *)
Definition timeSlotsRefine (slots : list TimeSlot) : bool :=
  if (List.length slots <? 2)%nat then true
  else scan (sortSlots (filter parses slots)).

Section Host.

Variable Date_parse : string -> Num.number.

(** The refinement of the whole object: "startDate must be before
    endDate". *)
Definition datesRefine (startDate endDate : string) : bool :=
  let start := Date_parse startDate in
  let end_ := Date_parse endDate in
  if Num.isNaN start || Num.isNaN end_ then true
  else Num.gt end_ start.

End Host.

End SchemaRefine.

(** ** CampaignForm.tsx: the helpers and handlers of the form *)

Module Ui.
Import State Machine.

Definition currentDraft (state : CampaignCreationState)
  : option CampaignDraft :=
  match state with
  | Editing draft | Validating draft | Invalid draft _
  | ConflictDetected draft | ReadyToPublish draft => Some draft
  | Idle | Published _ | Error _ => None
  end.

(** [Partial<CampaignDraft>]: the fields a patch sets. *)
Record Patch : Type :=
  { p_name : option string;
    p_startDate : option string;
    p_endDate : option string;
    p_screenIds : option (list string);
    p_timeSlots : option (list TimeSlot);
    p_mediaAsset : option MediaAsset }.

Definition pick {A : Type} (patch : option A) (old : A) : A :=
  match patch with Some v => v | None => old end.

(** [{ ...draft, ...patch }] *)
Definition merge (draft : CampaignDraft) (patch : Patch) : CampaignDraft :=
  {| name := pick (p_name patch) (name draft);
     startDate := pick (p_startDate patch) (startDate draft);
     endDate := pick (p_endDate patch) (endDate draft);
     screenIds := pick (p_screenIds patch) (screenIds draft);
     timeSlots := pick (p_timeSlots patch) (timeSlots draft);
     mediaAsset := pick (p_mediaAsset patch) (mediaAsset draft) |}.

(** [patchDraft]: [state] is the state the form was rendered with, [prev]
    the state the update is applied to. *)
Definition patchDraft (patch : Patch) (state prev : CampaignCreationState)
  : CampaignCreationState :=
  match currentDraft state with
  | None => prev
  | Some draft => transition prev (UPDATE_DRAFT (merge draft patch))
  end.

Definition handleStartCreation (prev : CampaignCreationState)
  : CampaignCreationState :=
  transition prev START_CREATION.

Definition handlePublish (prev : CampaignCreationState)
  : CampaignCreationState :=
  transition prev (PUBLISH "demo-id").

Definition noPatch : Patch :=
  {| p_name := None; p_startDate := None; p_endDate := None;
     p_screenIds := None; p_timeSlots := None; p_mediaAsset := None |}.

(** The three patches the inputs of the form make. *)
Definition namePatch (v : string) : Patch :=
  {| p_name := Some v; p_startDate := None; p_endDate := None;
     p_screenIds := None; p_timeSlots := None; p_mediaAsset := None |}.

Definition startDatePatch (v : string) : Patch :=
  {| p_name := None; p_startDate := Some v; p_endDate := None;
     p_screenIds := None; p_timeSlots := None; p_mediaAsset := None |}.

Definition endDatePatch (v : string) : Patch :=
  {| p_name := None; p_startDate := None; p_endDate := Some v;
     p_screenIds := None; p_timeSlots := None; p_mediaAsset := None |}.

(** A draft as the form can make it: only the name and the two dates differ
    from the empty draft. *)
Definition formDraft (d : CampaignDraft) : Prop :=
  screenIds d = screenIds emptyDraft
  /\ timeSlots d = timeSlots emptyDraft
  /\ mediaAsset d = mediaAsset emptyDraft.

(** What a user of the form can do. *)
Inductive gesture : Type :=
| ClickStart
| TypeName (v : string)
| TypeStartDate (v : string)
| TypeEndDate (v : string)
| ClickValidate
| ClickPublish.

Section Host.

Variable Date_parse : string -> Num.number.
Variable Number_toString : float -> string.

Definition handleValidate (prev : CampaignCreationState)
  : CampaignCreationState :=
  UseCase.validateCampaign Date_parse Number_toString prev.

(** One gesture on a form that is rendered with the state it holds. *)
Definition act (state : CampaignCreationState) (g : gesture)
  : CampaignCreationState :=
  match g with
  | ClickStart => handleStartCreation state
  | TypeName v => patchDraft (namePatch v) state state
  | TypeStartDate v => patchDraft (startDatePatch v) state state
  | TypeEndDate v => patchDraft (endDatePatch v) state state
  | ClickValidate => handleValidate state
  | ClickPublish => handlePublish state
  end.

(** The form starts in [idle]. *)
Definition session (l : list gesture) : CampaignCreationState :=
  fold_left act l Idle.

(** What holds of the states the form reaches. *)
Definition formState (s : CampaignCreationState) : Prop :=
  match s with
  | Idle => True
  | Editing d => formDraft d
  | Invalid d errors =>
      formDraft d
      /\ errors = Rules.validateCampaignDraft Date_parse Number_toString d
      /\ errors <> []
  | ReadyToPublish d =>
      formDraft d
      /\ Rules.validateCampaignDraft Date_parse Number_toString d = []
  | Published id => id = "demo-id"
  | Validating _ | ConflictDetected _ | Error _ => False
  end.

End Host.

End Ui.

(** ** Reading strings, error lists and runs *)

Module Reading.
Import State Machine.

(** A list of bytes that is a sequence of white-space characters. *)
Inductive blank : list ascii -> Prop :=
| blank_nil : blank []
| blank_1 (a : ascii) (l : list ascii) :
    Js.ws1 (Js.code a) = true -> blank l -> blank (a :: l)
| blank_2 (a b : ascii) (l : list ascii) :
    Js.ws2 (Js.code a) (Js.code b) = true -> blank l -> blank (a :: b :: l)
| blank_3 (a b c : ascii) (l : list ascii) :
    Js.ws3 (Js.code a) (Js.code b) (Js.code c) = true -> blank l ->
    blank (a :: b :: c :: l).

(** The place of a code in the order the rules run and emit. *)
Definition rank (c : ValidationErrorCode) : nat :=
  match c with
  | EMPTY_NAME => 1
  | INVALID_DATE_FORMAT | INVALID_DATE_RANGE => 2
  | EMPTY_SCREEN_SELECTION => 3
  | INVALID_TIME_FORMAT | OVERLAPPING_TIME_SLOTS => 4
  | MEDIA_SIZE_EXCEEDS_LIMIT => 5
  | MEDIA_TYPE_NOT_ALLOWED => 6
  end.

Definition isCode (c c' : ValidationErrorCode) : bool :=
  match c, c' with
  | EMPTY_NAME, EMPTY_NAME
  | INVALID_DATE_RANGE, INVALID_DATE_RANGE
  | INVALID_DATE_FORMAT, INVALID_DATE_FORMAT
  | OVERLAPPING_TIME_SLOTS, OVERLAPPING_TIME_SLOTS
  | EMPTY_SCREEN_SELECTION, EMPTY_SCREEN_SELECTION
  | MEDIA_SIZE_EXCEEDS_LIMIT, MEDIA_SIZE_EXCEEDS_LIMIT
  | MEDIA_TYPE_NOT_ALLOWED, MEDIA_TYPE_NOT_ALLOWED
  | INVALID_TIME_FORMAT, INVALID_TIME_FORMAT => true
  | _, _ => false
  end.

(** How many errors of a list carry the code [c]. *)
Definition count (c : ValidationErrorCode) (l : list ValidationError) : nat :=
  List.length (filter (isCode c) (codes l)).

Definition inRuleOrder (c c' : ValidationErrorCode) : Prop :=
  (rank c <= rank c')%nat.

(** The schema's parser and the domain parser agree on both times of a
    slot. *)
Definition parsersAgree (s : TimeSlot) : Prop :=
  Schema.parseHHmm (startTime s) = Rules.parseHHmm (startTime s)
  /\ Schema.parseHHmm (endTime s) = Rules.parseHHmm (endTime s).

(** An action of a caller that leaves VALIDATION_RESULT to the use case. *)
Definition external (a : Run.action) : bool :=
  match a with
  | Run.Dispatch (VALIDATION_RESULT _) => false
  | _ => true
  end.

Definition isSystemError (a : Run.action) : bool :=
  match a with
  | Run.Dispatch (SYSTEM_ERROR _) => true
  | _ => false
  end.

(** The status changes the header of [transition] lists. *)
Definition allowed (from to : Status) : bool :=
  match from, to with
  | idle, editing
  | editing, validating
  | validating, State.invalid
  | validating, conflict_detected
  | validating, ready_to_publish
  | State.invalid, editing
  | conflict_detected, editing
  | ready_to_publish, published
  | _, error => true
  | _, _ => false
  end.

Section Host.

Variable Date_parse : string -> Num.number.
Variable Number_toString : float -> string.

(** What holds of the states of a run in which VALIDATION_RESULT is left to
    the use case. *)
Definition gated (s : CampaignCreationState) : Prop :=
  match s with
  | ReadyToPublish d =>
      Rules.validateCampaignDraft Date_parse Number_toString d = []
  | Invalid d errors =>
      errors = Rules.validateCampaignDraft Date_parse Number_toString d
      /\ errors <> []
  | ConflictDetected _ => False
  | _ => True
  end.

End Host.

End Reading.

(** ** The 24-hour clock, as the specification reads a time

    These definitions do not go through the parser of the code: a time is
    read off the characters of the string. *)

Module Clock.
Import State.

(** The value of a decimal digit. *)
Definition digitOf (c : ascii) : option Z :=
  if (c =? "0")%char then Some 0%Z
  else if (c =? "1")%char then Some 1%Z
  else if (c =? "2")%char then Some 2%Z
  else if (c =? "3")%char then Some 3%Z
  else if (c =? "4")%char then Some 4%Z
  else if (c =? "5")%char then Some 5%Z
  else if (c =? "6")%char then Some 6%Z
  else if (c =? "7")%char then Some 7%Z
  else if (c =? "8")%char then Some 8%Z
  else if (c =? "9")%char then Some 9%Z
  else None.

(** The minutes since midnight a valid HH:mm string stands for: two digits
    of hours, 0 to 23, a colon, and two digits of minutes, 0 to 59.  No
    other string is a time. *)
Definition minutesOf (s : string) : option Z :=
  match s with
  | String h1 (String h2 (String c (String m1 (String m2 EmptyString)))) =>
      if (c =? ":")%char then
        match digitOf h1, digitOf h2, digitOf m1, digitOf m2 with
        | Some a, Some b, Some x, Some y =>
            let hours := (10 * a + b)%Z in
            let minutes := (10 * x + y)%Z in
            if (hours <=? 23)%Z && (minutes <=? 59)%Z
            then Some (60 * hours + minutes)%Z
            else None
        | _, _, _, _ => None
        end
      else None
  | _ => None
  end.

(** A well-formed slot: valid HH:mm times, startTime before endTime. *)
Definition wellFormed (s : TimeSlot) : bool :=
  match minutesOf (startTime s), minutesOf (endTime s) with
  | Some x, Some y => (x <? y)%Z
  | _, _ => false
  end.

(** Ascending order of start time. *)
Definition startsNoLater (a b : TimeSlot) : Prop :=
  match minutesOf (startTime a), minutesOf (startTime b) with
  | Some x, Some y => (x <= y)%Z
  | _, _ => False
  end.

Definition sortedByStart (l : list TimeSlot) : Prop :=
  Sorted startsNoLater l.

(** The end time of the earlier slot [a] is strictly greater than the start
    time of the later slot [b]; equal times are not an overlap. *)
Definition overlaps (a b : TimeSlot) : Prop :=
  match minutesOf (endTime a), minutesOf (startTime b) with
  | Some x, Some y => (x > y)%Z
  | _, _ => False
  end.

(** Some adjacent pair of [l] overlaps. *)
Definition adjacentOverlap (l : list TimeSlot) : Prop :=
  exists l1 a b l2, l = (l1 ++ a :: b :: l2)%list /\ overlaps a b.

End Clock.

(** ** Sample data, from the test suites *)

Module Samples.
Import State.

(** [Date.parse] on the strings the samples use. *)
Definition Date_parse (s : string) : Num.number :=
  if s =? "2026-06-01T00:00:00Z" then Some 1780272000000%Z
  else if s =? "2026-06-30T00:00:00Z" then Some 1782777600000%Z
  else if s =? "2026-06-30T23:59:59Z" then Some 1782863999000%Z
  else if s =? "2026-12-01T00:00:00Z" then Some 1796083200000%Z
  else if s =? "2026-12-31T23:59:59Z" then Some 1798761599000%Z
  else Num.NaN.

(** Number-to-string conversion on the sizes the samples use. *)
Definition Number_toString (x : float) : string :=
  if PrimFloat.eqb x 0%float then "0"
  else if PrimFloat.eqb x 10%float then "10"
  else if PrimFloat.eqb x 12%float then "12"
  else if PrimFloat.eqb x 50%float then "50"
  else if PrimFloat.eqb x 50.0001%float then "50.0001"
  else if PrimFloat.eqb x 51%float then "51"
  else "NaN".

Definition validDraft : CampaignDraft :=
  {| name := "Summer Sale";
     startDate := "2026-06-01T00:00:00Z";
     endDate := "2026-06-30T23:59:59Z";
     screenIds := ["screen-1"];
     timeSlots := [ {| startTime := "08:00"; endTime := "12:00" |};
                    {| startTime := "13:00"; endTime := "17:00" |} ];
     mediaAsset := {| url := "https://example.com/asset.jpg";
                      type := "image"; sizeInMb := 10%float |} |}.

Definition mockDraft : CampaignDraft :=
  {| name := "Winter Sale";
     startDate := "2026-12-01T00:00:00Z";
     endDate := "2026-12-31T23:59:59Z";
     screenIds := ["screen-2"];
     timeSlots := [];
     mediaAsset := {| url := "https://example.com/winter.jpg";
                      type := "image"; sizeInMb := 12%float |} |}.

Definition withTimeSlots (d : CampaignDraft) (l : list TimeSlot)
  : CampaignDraft :=
  {| name := name d; startDate := startDate d; endDate := endDate d;
     screenIds := screenIds d; timeSlots := l; mediaAsset := mediaAsset d |}.

Definition withDates (d : CampaignDraft) (s e : string) : CampaignDraft :=
  {| name := name d; startDate := s; endDate := e;
     screenIds := screenIds d; timeSlots := timeSlots d;
     mediaAsset := mediaAsset d |}.

Definition withMedia (d : CampaignDraft) (t : string) (size : float)
  : CampaignDraft :=
  {| name := name d; startDate := startDate d; endDate := endDate d;
     screenIds := screenIds d; timeSlots := timeSlots d;
     mediaAsset := {| url := url (mediaAsset d); type := t;
                      sizeInMb := size |} |}.

Definition slot (s e : string) : TimeSlot :=
  {| startTime := s; endTime := e |}.

End Samples.

(** * The state machine *)

Import State Machine.

(** C2. SYSTEM_ERROR takes every state to the error state carrying the
    event's error: the check comes before the dispatch on the state. *)
Theorem system_error_precedence :
  forall (s : CampaignCreationState) (err : SystemError),
    transition s (SYSTEM_ERROR err) = Error err.
Proof. intros s err. reflexivity. Qed.

(** C1, as the specification words it, fails: SYSTEM_ERROR leaves
    [published]. *)
Lemma published_not_immutable :
  transition (Published "x") (SYSTEM_ERROR {| sysMessage := "m" |})
  = Error {| sysMessage := "m" |}
  /\ transition (Published "x") (SYSTEM_ERROR {| sysMessage := "m" |})
     <> Published "x".
Proof. split; [reflexivity | discriminate]. Qed.

(** C1, amended.  From [published] and from [error], every event other than
    SYSTEM_ERROR returns the state unchanged, and SYSTEM_ERROR yields the
    error state of the event. *)
Theorem terminal_states (e : CampaignEvent) :
  (forall id,
      transition (Published id) e
      = match e with SYSTEM_ERROR err => Error err | _ => Published id end)
  /\ (forall err0,
        transition (Error err0) e
        = match e with SYSTEM_ERROR err => Error err | _ => Error err0 end).
Proof. split; intros; destruct e; reflexivity. Qed.

(** Where the table lists a transition, the successor has the listed
    status. *)
Lemma transition_follows_table (s : CampaignCreationState) (e : CampaignEvent)
      (st : Status) :
  Table.table (status s) e = Some st -> status (transition s e) = st.
Proof.
  destruct e as [ | d | | [errs | | ] | id | err]; destruct s; simpl;
    intros H; try discriminate; now injection H.
Qed.

(** C5. [transition] yields a state for every state and event, and where the
    table lists no transition it yields the input state. *)
Theorem transition_total_noop (s : CampaignCreationState) (e : CampaignEvent) :
  (exists s', transition s e = s')
  /\ (Table.table (status s) e = None -> transition s e = s).
Proof.
  split; [now exists (transition s e) | ].
  destruct e as [ | d | | [errs | | ] | id | err]; destruct s; simpl;
    intros H; try discriminate; reflexivity.
Qed.

Lemma transition_total_noop_witness :
  Table.table (status (ReadyToPublish Samples.mockDraft)) START_CREATION = None
  /\ transition (ReadyToPublish Samples.mockDraft) START_CREATION
     = ReadyToPublish Samples.mockDraft.
Proof.
  split; [reflexivity | ].
  apply (transition_total_noop (ReadyToPublish Samples.mockDraft)
           START_CREATION).
  reflexivity.
Defined.

(** * The validate use case *)

Section UseCaseProperties.

Variable Date_parse : string -> Num.number.
Variable Number_toString : float -> string.

Local Abbreviation validateCampaignDraft :=
  (Rules.validateCampaignDraft Date_parse Number_toString).
Local Abbreviation validateCampaign :=
  (UseCase.validateCampaign Date_parse Number_toString).

(** The use case on an editing state, by the error list of the draft. *)
Lemma validateCampaign_editing (d : CampaignDraft) :
  validateCampaign (Editing d)
  = match validateCampaignDraft d with
    | [] => ReadyToPublish d
    | e0 :: errs => Invalid d (e0 :: errs)
    end.
Proof.
  unfold UseCase.validateCampaign. simpl.
  destruct (validateCampaignDraft d); reflexivity.
Qed.

(** Outside [editing] the use case returns its argument. *)
Lemma validateCampaign_guard (s : CampaignCreationState) :
  status s <> editing -> validateCampaign s = s.
Proof. destruct s; simpl; intros H; try reflexivity. now elim H. Qed.

(** C3. A draft with an empty error list takes [editing] to
    [ready_to_publish] with the same draft; the use case produces
    [ready_to_publish] from [editing] for no other error list, and the machine
    enters [ready_to_publish] only from [validating] on a [valid] result. *)
Theorem valid_draft_ready_to_publish (d : CampaignDraft) :
  (validateCampaignDraft d = [] ->
   validateCampaign (Editing d) = ReadyToPublish d)
  /\ (forall d',
        validateCampaign (Editing d) = ReadyToPublish d' ->
        validateCampaignDraft d = [] /\ d' = d)
  /\ (forall s e,
        status s <> ready_to_publish ->
        transition s e = ReadyToPublish d ->
        s = Validating d /\ e = VALIDATION_RESULT Validation.valid).
Proof.
  split; [ | split].
  - intros H. rewrite validateCampaign_editing, H. reflexivity.
  - intros d'. rewrite validateCampaign_editing.
    destruct (validateCampaignDraft d); [ | discriminate].
    intros H. injection H as ->. now split.
  - intros s e Hs.
    destruct e as [ | d0 | | [errs | | ] | id | err]; destruct s; simpl;
      intros H; try discriminate; try (now elim Hs).
    injection H as ->. now split.
Qed.

(** The invariant survives every well-typed action. *)
Lemma perform_invalidHasErrors (s : CampaignCreationState) (a : Run.action) :
  Run.wellTyped a = true ->
  Run.invalidHasErrors s = true ->
  Run.invalidHasErrors (Run.perform Date_parse Number_toString s a) = true.
Proof.
  intros Ha Hs. destruct a as [e | ]; simpl.
  - destruct e as [ | d0 | | [errs | | ] | id | err]; destruct s; simpl in *;
      try reflexivity; assumption.
  - destruct s; try exact Hs.
    rewrite validateCampaign_editing.
    destruct (validateCampaignDraft draft); reflexivity.
Qed.

Lemma run_invalidHasErrors (l : list Run.action) :
  forallb Run.wellTyped l = true ->
  forall s,
    Run.invalidHasErrors s = true ->
    Run.invalidHasErrors (Run.run Date_parse Number_toString s l) = true.
Proof.
  unfold Run.run.
  induction l as [ | a l IH]; simpl; intros Hl s Hs; [exact Hs | ].
  apply andb_true_iff in Hl as [Ha Hl].
  apply (IH Hl _ (perform_invalidHasErrors s a Ha Hs)).
Qed.

(** C6. Every [invalid] state reached from [idle] by dispatching well-typed
    events and calling the use case carries at least one error, and so does
    every [invalid] state the use case returns for an [editing] state. *)
Theorem invalid_errors_nonempty (l : list Run.action) :
  (forallb Run.wellTyped l = true ->
   forall d errors,
     Run.run Date_parse Number_toString Idle l = Invalid d errors ->
     (1 <= List.length errors)%nat)
  /\ (forall d0 d errors,
        validateCampaign (Editing d0) = Invalid d errors ->
        (1 <= List.length errors)%nat).
Proof.
  split.
  - intros Hl d errors Hrun.
    pose proof (run_invalidHasErrors l Hl Idle eq_refl) as H.
    rewrite Hrun in H. simpl in H. apply Nat.ltb_lt in H. lia.
  - intros d0 d errors. rewrite validateCampaign_editing.
    destruct (validateCampaignDraft d0); [discriminate | ].
    intros H. injection H as _ <-. simpl. lia.
Qed.

End UseCaseProperties.

Lemma invalid_errors_nonempty_witness :
  exists d errors,
    Run.run Samples.Date_parse Samples.Number_toString Idle
      [Run.Dispatch START_CREATION; Run.Validate] = Invalid d errors
    /\ (1 <= List.length errors)%nat.
Proof.
  eexists; eexists; split; [reflexivity | ].
  eapply (proj1 (invalid_errors_nonempty Samples.Date_parse
                   Samples.Number_toString
                   [Run.Dispatch START_CREATION; Run.Validate]) eq_refl).
  reflexivity.
Defined.

Lemma valid_draft_ready_to_publish_witness :
  Rules.validateCampaignDraft Samples.Date_parse Samples.Number_toString
    Samples.validDraft = []
  /\ UseCase.validateCampaign Samples.Date_parse Samples.Number_toString
       (Editing Samples.validDraft) = ReadyToPublish Samples.validDraft.
Proof.
  split; [reflexivity | ].
  apply (proj1 (valid_draft_ready_to_publish Samples.Date_parse
                  Samples.Number_toString Samples.validDraft)).
  reflexivity.
Defined.

(** * The rule validator *)

Section RuleProperties.

Variable Date_parse : string -> Num.number.
Variable Number_toString : float -> string.

Local Abbreviation validateDateRange := (Rules.validateDateRange Date_parse).
Local Abbreviation validateMediaAsset :=
  (Rules.validateMediaAsset Number_toString).
Local Abbreviation validateCampaignDraft :=
  (Rules.validateCampaignDraft Date_parse Number_toString).

(** *** Which rule emits which code *)

Lemma validateName_codes (d : CampaignDraft) (c : ValidationErrorCode) :
  In c (codes (Rules.validateName d)) -> c = EMPTY_NAME.
Proof.
  unfold Rules.validateName.
  destruct (_ =? _)%nat; simpl; [ | tauto]. intros [H | []]; now subst.
Qed.

Lemma validateDateRange_codes (d : CampaignDraft) (c : ValidationErrorCode) :
  In c (codes (validateDateRange d)) -> Codes.isDateCode c = true.
Proof.
  unfold Rules.validateDateRange.
  destruct (_ || _); [ | destruct (Num.ge _ _)]; simpl; try tauto;
    intros [H | []]; now subst.
Qed.

Lemma validateScreenIds_codes (d : CampaignDraft) (c : ValidationErrorCode) :
  In c (codes (Rules.validateScreenIds d)) -> c = EMPTY_SCREEN_SELECTION.
Proof.
  unfold Rules.validateScreenIds.
  destruct (_ =? _)%nat; simpl; [ | tauto]. intros [H | []]; now subst.
Qed.

Lemma slotErrors_codes (slot : TimeSlot) (c : ValidationErrorCode) :
  In c (codes (Rules.slotErrors slot)) -> c = INVALID_TIME_FORMAT.
Proof.
  unfold Rules.slotErrors.
  destruct (_ || _); [ | destruct (Num.ge _ _)]; simpl; try tauto;
    intros [H | []]; now subst.
Qed.

Lemma formatErrors_codes (l : list TimeSlot) (c : ValidationErrorCode) :
  In c (codes (flat_map Rules.slotErrors l)) -> c = INVALID_TIME_FORMAT.
Proof.
  unfold codes. rewrite in_map_iff. intros (e & <- & He).
  apply in_flat_map in He as (slot & _ & He).
  apply (slotErrors_codes slot). now apply in_map.
Qed.

Lemma overlapErrors_codes (l : list TimeSlot) (c : ValidationErrorCode) :
  In c (codes (Rules.overlapErrors l)) -> c = OVERLAPPING_TIME_SLOTS.
Proof.
  induction l as [ | a [ | b l] IH]; simpl; try tauto.
  unfold codes in *. rewrite map_app, in_app_iff. intros [H | H].
  - destruct (Num.gt _ _); simpl in H; [ | tauto].
    destruct H as [H | []]; now subst.
  - now apply IH.
Qed.

Lemma validateTimeSlots_codes (d : CampaignDraft) (c : ValidationErrorCode) :
  In c (codes (Rules.validateTimeSlots d)) ->
  c = INVALID_TIME_FORMAT \/ c = OVERLAPPING_TIME_SLOTS.
Proof.
  unfold Rules.validateTimeSlots.
  destruct (_ =? _)%nat.
  - unfold codes. rewrite map_app, in_app_iff. intros [H | H].
    + left. now apply (formatErrors_codes (timeSlots d)).
    + right. now apply (overlapErrors_codes (Rules.sortSlots (timeSlots d))).
  - left. now apply (formatErrors_codes (timeSlots d)).
Qed.

Lemma validateMediaAsset_codes (d : CampaignDraft) (c : ValidationErrorCode) :
  In c (codes (validateMediaAsset d)) ->
  c = MEDIA_SIZE_EXCEEDS_LIMIT \/ c = MEDIA_TYPE_NOT_ALLOWED.
Proof.
  unfold Rules.validateMediaAsset.
  destruct (PrimFloat.ltb _ _), (_ && _); simpl; intuition.
Qed.

(** The codes of the whole validator are those of the five rules, in rule
    order. *)
Lemma validateCampaignDraft_codes (d : CampaignDraft) :
  codes (validateCampaignDraft d)
  = (codes (Rules.validateName d)
     ++ codes (validateDateRange d)
     ++ codes (Rules.validateScreenIds d)
     ++ codes (Rules.validateTimeSlots d)
     ++ codes (validateMediaAsset d))%list.
Proof.
  unfold Rules.validateCampaignDraft, codes. now rewrite !map_app.
Qed.

Lemma filter_nil_when (A : Type) (p : A -> bool) (l : list A) :
  (forall x, In x l -> p x = false) -> filter p l = [].
Proof.
  induction l as [ | x l IH]; simpl; intros H; [reflexivity | ].
  rewrite (H x (or_introl eq_refl)). apply IH. intros y Hy. apply H. now right.
Qed.

Lemma filter_all_when (A : Type) (p : A -> bool) (l : list A) :
  (forall x, In x l -> p x = true) -> filter p l = l.
Proof.
  induction l as [ | x l IH]; simpl; intros H; [reflexivity | ].
  rewrite (H x (or_introl eq_refl)). f_equal. apply IH. intros y Hy.
  apply H. now right.
Qed.

(** The date codes of the validator are the codes of the date rule. *)
Lemma dateCodes_validateCampaignDraft (d : CampaignDraft) :
  Codes.dateCodes (validateCampaignDraft d) = codes (validateDateRange d).
Proof.
  unfold Codes.dateCodes. rewrite validateCampaignDraft_codes, !filter_app.
  rewrite (filter_nil_when _ _ (codes (Rules.validateName d))),
    (filter_all_when _ _ (codes (validateDateRange d))),
    (filter_nil_when _ _ (codes (Rules.validateScreenIds d))),
    (filter_nil_when _ _ (codes (Rules.validateTimeSlots d))),
    (filter_nil_when _ _ (codes (validateMediaAsset d))).
  - simpl. now rewrite app_nil_r.
  - intros c H. now destruct (validateMediaAsset_codes d c H); subst.
  - intros c H. now destruct (validateTimeSlots_codes d c H); subst.
  - intros c H. now rewrite (validateScreenIds_codes d c H).
  - apply validateDateRange_codes.
  - intros c H. now rewrite (validateName_codes d c H).
Qed.

(** C7. An unparseable startDate or endDate gives the single date error
    INVALID_DATE_FORMAT, with no range check; two parseable dates with
    start >= end give INVALID_DATE_RANGE, in particular two equal date
    strings; otherwise the date rule gives no error. *)
Theorem date_rule (d : CampaignDraft) :
  (Num.isNaN (Date_parse (startDate d)) = true
   \/ Num.isNaN (Date_parse (endDate d)) = true ->
   Codes.dateCodes (validateCampaignDraft d) = [INVALID_DATE_FORMAT])
  /\ (forall start end_ : Z,
        Date_parse (startDate d) = Some start ->
        Date_parse (endDate d) = Some end_ ->
        (start >= end_)%Z ->
        Codes.dateCodes (validateCampaignDraft d) = [INVALID_DATE_RANGE])
  /\ (forall start end_ : Z,
        Date_parse (startDate d) = Some start ->
        Date_parse (endDate d) = Some end_ ->
        (start < end_)%Z ->
        Codes.dateCodes (validateCampaignDraft d) = [])
  /\ (startDate d = endDate d ->
      Num.isNaN (Date_parse (startDate d)) = false ->
      Codes.dateCodes (validateCampaignDraft d) = [INVALID_DATE_RANGE]).
Proof.
  rewrite dateCodes_validateCampaignDraft. unfold Rules.validateDateRange.
  repeat split.
  - intros [H | H]; rewrite H; [ | rewrite orb_true_r]; reflexivity.
  - intros start end_ -> -> H. simpl.
    destruct (Z.geb_spec start end_); [reflexivity | lia].
  - intros start end_ -> -> H. simpl.
    destruct (Z.geb_spec start end_); [lia | reflexivity].
  - intros <- H. destruct (Date_parse (startDate d)) as [z | ];
      [ | discriminate]. simpl.
    destruct (Z.geb_spec z z); [reflexivity | lia].
Qed.

(** Membership of a code in the validator's output, rule by rule. *)
Lemma in_validateCampaignDraft (d : CampaignDraft) (c : ValidationErrorCode) :
  In c (codes (validateCampaignDraft d))
  <-> In c (codes (Rules.validateName d))
      \/ In c (codes (validateDateRange d))
      \/ In c (codes (Rules.validateScreenIds d))
      \/ In c (codes (Rules.validateTimeSlots d))
      \/ In c (codes (validateMediaAsset d)).
Proof. rewrite validateCampaignDraft_codes, !in_app_iff. tauto. Qed.

(** A code reaches the validator's output only through the rules that can
    emit it. *)
Ltac foreign_code H :=
  first
    [ apply validateName_codes in H
    | apply validateDateRange_codes in H
    | apply validateScreenIds_codes in H
    | apply validateTimeSlots_codes in H; destruct H as [H | H]
    | apply validateMediaAsset_codes in H; destruct H as [H | H] ];
  discriminate H.

Lemma media_codes_origin (d : CampaignDraft)
      (c : ValidationErrorCode) :
  c = MEDIA_SIZE_EXCEEDS_LIMIT \/ c = MEDIA_TYPE_NOT_ALLOWED ->
  In c (codes (validateCampaignDraft d))
  <-> In c (codes (validateMediaAsset d)).
Proof.
  intros Hc. rewrite in_validateCampaignDraft. split; [ | tauto].
  intros [H | [H | [H | [H | H]]]]; [ | | | | exact H];
    destruct Hc; subst c; foreign_code H.
Qed.

Lemma media_size_code (d : CampaignDraft) :
  In MEDIA_SIZE_EXCEEDS_LIMIT (codes (validateMediaAsset d))
  <-> Codes.exceedsLimit (sizeInMb (mediaAsset d)) = true.
Proof.
  unfold Rules.validateMediaAsset, Codes.exceedsLimit.
  destruct (PrimFloat.ltb _ _), (_ && _); simpl; split; intros H;
    try reflexivity; try discriminate; try tauto;
    repeat destruct H as [H | H]; try discriminate; tauto.
Qed.

Lemma media_type_code (d : CampaignDraft) :
  In MEDIA_TYPE_NOT_ALLOWED (codes (validateMediaAsset d))
  <-> type (mediaAsset d) <> "image" /\ type (mediaAsset d) <> "video".
Proof.
  unfold Rules.validateMediaAsset.
  destruct (String.eqb_spec (type (mediaAsset d)) "image") as [Hi | Hi];
    destruct (String.eqb_spec (type (mediaAsset d)) "video") as [Hv | Hv];
    destruct (PrimFloat.ltb _ _); simpl; split; intros H; try tauto;
    repeat destruct H as [H | H]; try discriminate; tauto.
Qed.

(** C8. MEDIA_SIZE_EXCEEDS_LIMIT is emitted exactly when [sizeInMb > 50]: 50
    passes, 50.0001 and the binary64 successor of 50 fail.
    MEDIA_TYPE_NOT_ALLOWED is emitted exactly when the type is neither
    "image" nor "video".  When both conditions hold both errors are emitted,
    size first. *)
Theorem media_rule (d : CampaignDraft) :
  (In MEDIA_SIZE_EXCEEDS_LIMIT (codes (validateCampaignDraft d))
   <-> Codes.exceedsLimit (sizeInMb (mediaAsset d)) = true)
  /\ (In MEDIA_TYPE_NOT_ALLOWED (codes (validateCampaignDraft d))
      <-> type (mediaAsset d) <> "image" /\ type (mediaAsset d) <> "video")
  /\ (Codes.exceedsLimit (sizeInMb (mediaAsset d)) = true ->
      type (mediaAsset d) <> "image" ->
      type (mediaAsset d) <> "video" ->
      codes (validateMediaAsset d)
      = [MEDIA_SIZE_EXCEEDS_LIMIT; MEDIA_TYPE_NOT_ALLOWED])
  /\ (sizeInMb (mediaAsset d) = 50%float ->
      ~ In MEDIA_SIZE_EXCEEDS_LIMIT (codes (validateCampaignDraft d)))
  /\ (sizeInMb (mediaAsset d) = 50.0001%float
      \/ sizeInMb (mediaAsset d) = PrimFloat.next_up 50%float ->
      In MEDIA_SIZE_EXCEEDS_LIMIT (codes (validateCampaignDraft d))).
Proof.
  rewrite !media_codes_origin by tauto.
  rewrite media_size_code.
  split; [reflexivity | ]. split; [apply media_type_code | ].
  split; [ | split].
  - unfold Rules.validateMediaAsset, Codes.exceedsLimit. intros -> Hi Hv.
    apply String.eqb_neq in Hi, Hv. rewrite Hi, Hv. reflexivity.
  - intros ->. discriminate.
  - intros [-> | ->]; reflexivity.
Qed.

(** C10. START_CREATION hands [editing] a draft whose only screen identifier
    is the empty string; such a draft gets no EMPTY_SCREEN_SELECTION error,
    and the screen rule depends on the number of identifiers only. *)
Theorem blank_screen_ids_pass :
  (transition Idle START_CREATION = Editing emptyDraft
   /\ screenIds emptyDraft = [EmptyString])
  /\ (forall d,
        screenIds d = [EmptyString] ->
        Rules.validateScreenIds d = []
        /\ ~ In EMPTY_SCREEN_SELECTION (codes (validateCampaignDraft d)))
  /\ (forall d d',
        List.length (screenIds d) = List.length (screenIds d') ->
        Rules.validateScreenIds d = Rules.validateScreenIds d').
Proof.
  split; [now split | ]. split.
  - intros d Hd.
    assert (Hs : Rules.validateScreenIds d = [])
      by (unfold Rules.validateScreenIds; now rewrite Hd).
    split; [exact Hs | ].
    rewrite in_validateCampaignDraft, Hs.
    intros [H | [H | [H | [H | H]]]]; [ | | exact H | | ]; foreign_code H.
  - intros d d' H. unfold Rules.validateScreenIds. now rewrite H.
Qed.

(** *** Time slots *)

Lemma wellFormed_minutes (s : TimeSlot) :
  Slots.wellFormed s = true ->
  Slots.startOf s = Some (Slots.minutes (Slots.startOf s))
  /\ Slots.endOf s = Some (Slots.minutes (Slots.endOf s))
  /\ (Slots.minutes (Slots.startOf s) < Slots.minutes (Slots.endOf s))%Z.
Proof.
  unfold Slots.wellFormed.
  destruct (Slots.startOf s) as [x | ], (Slots.endOf s) as [y | ];
    try discriminate.
  intros H. apply Z.ltb_lt in H. simpl. auto.
Qed.

(** The first loop is silent on a slot exactly when the slot is
    well-formed. *)
Lemma slotErrors_nil (s : TimeSlot) :
  Rules.slotErrors s = [] <-> Slots.wellFormed s = true.
Proof.
  unfold Rules.slotErrors, Slots.wellFormed, Slots.startOf, Slots.endOf.
  destruct (Rules.parseHHmm (startTime s)) as [x | ],
    (Rules.parseHHmm (endTime s)) as [y | ]; simpl;
    try (split; discriminate).
  destruct (Z.geb_spec x y), (Z.ltb_spec x y); try lia;
    split; try discriminate; reflexivity.
Qed.

Lemma formatErrors_nil (l : list TimeSlot) :
  flat_map Rules.slotErrors l = [] <-> forallb Slots.wellFormed l = true.
Proof.
  induction l as [ | s l IH]; simpl; [tauto | ].
  rewrite andb_true_iff, <- IH, <- slotErrors_nil.
  split.
  - intros H. now apply app_eq_nil in H.
  - intros [-> ->]. reflexivity.
Qed.

(** The second loop emits its code exactly when an adjacent pair overlaps. *)
Lemma overlapErrors_hasAdjacentOverlap (l : list TimeSlot) :
  In OVERLAPPING_TIME_SLOTS (codes (Rules.overlapErrors l))
  <-> Slots.hasAdjacentOverlap l = true.
Proof.
  induction l as [ | a l IH]; simpl; [split; [tauto | discriminate] | ].
  destruct l as [ | b l]; [simpl; split; [tauto | discriminate] | ].
  unfold codes in *. rewrite map_app, in_app_iff, IH, orb_true_iff.
  unfold Slots.runsInto, Slots.endOf, Slots.startOf, Num.gt, Num.cmp2.
  destruct (Rules.parseHHmm (endTime a)) as [x | ],
    (Rules.parseHHmm (startTime b)) as [y | ]; simpl;
    try (split; [tauto | intros [H | H]; [discriminate | tauto]]).
  rewrite Z.gtb_ltb. destruct (y <? x)%Z; simpl.
  - split; auto.
  - split; [tauto | intros [H | H]; [discriminate | tauto]].
Qed.

Lemma hasAdjacentOverlap_spec (l : list TimeSlot) :
  Slots.hasAdjacentOverlap l = true <-> Slots.adjacentOverlap l.
Proof.
  unfold Slots.adjacentOverlap. split.
  - induction l as [ | a l IH]; [discriminate | ].
    destruct l as [ | b l]; [discriminate | ].
    simpl. rewrite orb_true_iff. intros [H | H].
    + now exists [], a, b, l.
    + destruct (IH H) as (l1 & x & y & l2 & E & Hxy).
      exists (a :: l1), x, y, l2. simpl. now rewrite E.
  - intros (l1 & a & b & l2 & -> & H).
    induction l1 as [ | x l1 IH]; simpl.
    + now rewrite H.
    + simpl in IH. rewrite IH.
      destruct l1; simpl; apply orb_true_r.
Qed.

(** **** The sort *)

Lemma insertSlot_perm (a : TimeSlot) (l : list TimeSlot) :
  Permutation (Rules.insertSlot a l) (a :: l).
Proof.
  induction l as [ | b l IH]; simpl; [reflexivity | ].
  destruct (Num.gt _ _); [ | reflexivity].
  rewrite IH. apply perm_swap.
Qed.

Lemma sortSlots_perm (l : list TimeSlot) : Permutation (Rules.sortSlots l) l.
Proof.
  induction l as [ | a l IH]; simpl; [reflexivity | ].
  rewrite insertSlot_perm. now apply perm_skip.
Qed.

Lemma byStart_positive (a b : TimeSlot) :
  Slots.wellFormed a = true -> Slots.wellFormed b = true ->
  if Num.gt (Rules.byStart a b) (Some 0%Z)
  then Slots.startsNoLater b a else Slots.startsNoLater a b.
Proof.
  intros Ha Hb.
  destruct (wellFormed_minutes a Ha) as (Ea & _ & _).
  destruct (wellFormed_minutes b Hb) as (Eb & _ & _).
  unfold Rules.byStart, Slots.startsNoLater.
  unfold Slots.startOf in *. rewrite Ea, Eb. simpl.
  destruct (Z.gtb_spec (Slots.minutes (Rules.parseHHmm (startTime a))
                          - Slots.minutes (Rules.parseHHmm (startTime b))) 0);
    lia.
Qed.

Lemma insertSlot_hd (a x : TimeSlot) (l : list TimeSlot) :
  Slots.startsNoLater x a -> HdRel Slots.startsNoLater x l ->
  HdRel Slots.startsNoLater x (Rules.insertSlot a l).
Proof.
  intros Hxa Hl. destruct l as [ | b l]; simpl; [now constructor | ].
  inversion_clear Hl. destruct (Num.gt _ _); now constructor.
Qed.

Lemma insertSlot_sorted (a : TimeSlot) (l : list TimeSlot) :
  Slots.wellFormed a = true -> forallb Slots.wellFormed l = true ->
  Slots.sortedByStart l -> Slots.sortedByStart (Rules.insertSlot a l).
Proof.
  unfold Slots.sortedByStart. intros Ha.
  induction l as [ | b l IH]; simpl; intros Hl Hs.
  - repeat constructor.
  - apply andb_true_iff in Hl as [Hb Hl]. inversion_clear Hs.
    pose proof (byStart_positive a b Ha Hb) as Hab.
    destruct (Num.gt _ _).
    + constructor; [now apply IH | now apply insertSlot_hd].
    + constructor; [now constructor | now constructor].
Qed.

Lemma forallb_perm (A : Type) (p : A -> bool) (l l' : list A) :
  Permutation l l' -> forallb p l = true -> forallb p l' = true.
Proof.
  rewrite !forallb_forall. intros HP H x Hx. apply H.
  now apply (Permutation_in x (Permutation_sym HP)).
Qed.

(** On well-formed slots the sort yields a permutation in ascending order of
    start time. *)
Lemma sortSlots_sorted (l : list TimeSlot) :
  forallb Slots.wellFormed l = true ->
  Slots.sortedByStart (Rules.sortSlots l).
Proof.
  induction l as [ | a l IH]; simpl; intros Hl; [constructor | ].
  apply andb_true_iff in Hl as [Ha Hl].
  apply insertSlot_sorted; [exact Ha | | now apply IH].
  apply (forallb_perm _ _ l); [ | exact Hl].
  apply Permutation_sym, sortSlots_perm.
Qed.

(** **** Adjacent overlaps do not depend on how ties are ordered *)

Lemma startsNoLater_minutes (a b : TimeSlot) :
  Slots.startsNoLater a b ->
  (Slots.minutes (Slots.startOf a) <= Slots.minutes (Slots.startOf b))%Z.
Proof.
  unfold Slots.startsNoLater.
  destruct (Slots.startOf a), (Slots.startOf b); simpl; tauto.
Qed.

Lemma startsNoLater_trans (a b c : TimeSlot) :
  Slots.startsNoLater a b -> Slots.startsNoLater b c ->
  Slots.startsNoLater a c.
Proof.
  unfold Slots.startsNoLater.
  destruct (Slots.startOf a), (Slots.startOf b), (Slots.startOf c);
    try tauto; lia.
Qed.

Lemma runsInto_minutes (a b : TimeSlot) :
  Slots.wellFormed a = true -> Slots.wellFormed b = true ->
  Slots.runsInto a b = false
  <-> (Slots.minutes (Slots.endOf a) <= Slots.minutes (Slots.startOf b))%Z.
Proof.
  intros Ha Hb.
  destruct (wellFormed_minutes a Ha) as (_ & Ea & _).
  destruct (wellFormed_minutes b Hb) as (Eb & _ & _).
  unfold Slots.runsInto. rewrite Ea, Eb. apply Z.ltb_ge.
Qed.

Lemma apart_perm (l l' : list TimeSlot) :
  Permutation l l' -> Slots.apart l -> Slots.apart l'.
Proof.
  unfold Slots.apart.
  induction 1 as [ | x l l' HP IH | x y l | l l' l'' _ IH1 _ IH2]; intros H.
  - exact H.
  - inversion_clear H as [ | ? ? Hx Hl].
    constructor; [ | now apply IH].
    now apply (Permutation_Forall HP).
  - inversion_clear H as [ | ? ? Hy Hl].
    inversion_clear Hl as [ | ? ? Hx Hl'].
    inversion_clear Hy as [ | ? ? Hyx Hy'].
    constructor; [ | now constructor].
    constructor; [ | exact Hx].
    unfold Slots.intersect in *. tauto.
  - auto.
Qed.

(** In a list of well-formed slots in ascending order of start time, no
    adjacent pair overlaps exactly when no two slots share any time. *)
Lemma sorted_apart (l : list TimeSlot) :
  forallb Slots.wellFormed l = true ->
  Slots.sortedByStart l ->
  Slots.hasAdjacentOverlap l = false <-> Slots.apart l.
Proof.
  unfold Slots.sortedByStart, Slots.apart. intros Hwf Hs.
  apply Sorted_StronglySorted in Hs;
    [ | intros a b c; apply startsNoLater_trans].
  induction l as [ | a l IH]; [split; [constructor | reflexivity] | ].
  simpl in Hwf. apply andb_true_iff in Hwf as [Ha Hl].
  apply StronglySorted_inv in Hs as [Hs Hal].
  specialize (IH Hl Hs).
  destruct l as [ | b l]; [split; [repeat constructor | reflexivity] | ].
  change (Slots.hasAdjacentOverlap (a :: b :: l))
    with (Slots.runsInto a b || Slots.hasAdjacentOverlap (b :: l)).
  rewrite orb_false_iff, IH.
  simpl in Hl. apply andb_true_iff in Hl as [Hb Hl].
  rewrite (runsInto_minutes a b Ha Hb).
  pose proof (wellFormed_minutes b Hb) as (_ & _ & Hlt).
  apply StronglySorted_inv in Hs as [_ Hbl].
  split.
  - intros [Hab Hap]. constructor; [ | exact Hap].
    constructor.
    + unfold Slots.intersect. lia.
    + rewrite Forall_forall in *. intros c Hc.
      pose proof (startsNoLater_minutes b c (Hbl c Hc)).
      unfold Slots.intersect. lia.
  - intros H. inversion_clear H as [ | ? ? Hx Hap]. split; [ | exact Hap].
    inversion_clear Hx as [ | ? ? Hnab _].
    inversion_clear Hal as [ | ? ? Hab _].
    apply startsNoLater_minutes in Hab.
    unfold Slots.intersect in Hnab. lia.
Qed.

Lemma hasAdjacentOverlap_perm (l l' : list TimeSlot) :
  forallb Slots.wellFormed l = true ->
  Permutation l l' ->
  Slots.sortedByStart l -> Slots.sortedByStart l' ->
  Slots.hasAdjacentOverlap l = Slots.hasAdjacentOverlap l'.
Proof.
  intros Hwf HP Hs Hs'.
  pose proof (sorted_apart l Hwf Hs) as H.
  pose proof (sorted_apart l' (forallb_perm _ _ _ _ HP Hwf) Hs') as H'.
  pose proof (apart_perm l l' HP).
  pose proof (apart_perm l' l (Permutation_sym HP)).
  destruct (Slots.hasAdjacentOverlap l), (Slots.hasAdjacentOverlap l');
    try reflexivity; intuition congruence.
Qed.

(** The overlap code comes from the time-slot rule only. *)
Lemma overlap_code_from_slot_rule (d : CampaignDraft) :
  In OVERLAPPING_TIME_SLOTS (codes (validateCampaignDraft d))
  <-> In OVERLAPPING_TIME_SLOTS (codes (Rules.validateTimeSlots d)).
Proof.
  rewrite in_validateCampaignDraft. split; [ | tauto].
  intros [H | [H | [H | [H | H]]]]; [ | | | exact H | ]; foreign_code H.
Qed.

(** The overlap scan, on the times as the parser of the code returns
    them. *)
Lemma overlap_scan_on_parsed_times (d : CampaignDraft) :
  (forallb Slots.wellFormed (timeSlots d) = true ->
   (Permutation (Rules.sortSlots (timeSlots d)) (timeSlots d)
    /\ Slots.sortedByStart (Rules.sortSlots (timeSlots d)))
   /\ forall sorted,
       Permutation sorted (timeSlots d) ->
       Slots.sortedByStart sorted ->
       In OVERLAPPING_TIME_SLOTS (codes (validateCampaignDraft d))
       <-> Slots.adjacentOverlap sorted)
  /\ (forallb Slots.wellFormed (timeSlots d) = false ->
      ~ In OVERLAPPING_TIME_SLOTS (codes (validateCampaignDraft d))).
Proof.
  split.
  - intros Hwf.
    split; [split; [apply sortSlots_perm | now apply sortSlots_sorted] | ].
    intros sorted HP Hs.
    rewrite overlap_code_from_slot_rule. unfold Rules.validateTimeSlots.
    rewrite (proj2 (formatErrors_nil (timeSlots d)) Hwf). simpl.
    rewrite overlapErrors_hasAdjacentOverlap, <- hasAdjacentOverlap_spec.
    rewrite (hasAdjacentOverlap_perm (Rules.sortSlots (timeSlots d)) sorted).
    + tauto.
    + apply (forallb_perm _ _ (timeSlots d)); [ | exact Hwf].
      apply Permutation_sym, sortSlots_perm.
    + rewrite sortSlots_perm. now apply Permutation_sym.
    + now apply sortSlots_sorted.
    + exact Hs.
  - intros Hwf.
    rewrite overlap_code_from_slot_rule. unfold Rules.validateTimeSlots.
    destruct (flat_map Rules.slotErrors (timeSlots d)) as [ | e l] eqn:E.
    + apply formatErrors_nil in E. congruence.
    + simpl. intros H.
      assert (H' : In OVERLAPPING_TIME_SLOTS
                     (codes (flat_map Rules.slotErrors (timeSlots d))))
        by (rewrite E; exact H).
      apply formatErrors_codes in H'. discriminate H'.
Qed.

End RuleProperties.

(** * The HH:mm formats of the two validators *)

Import Regex.

(** Case analysis on the character tests a match runs into. *)
Ltac split_class :=
  repeat match goal with
         | H : in_range ?l ?h ?c = _ |- context [in_range ?l ?h ?c] =>
             rewrite H; cbn -[Ascii.eqb in_range]
         | H : Ascii.eqb ?k ?c = _ |- context [Ascii.eqb ?k ?c] =>
             rewrite H; cbn -[Ascii.eqb in_range]
         | |- context [in_range ?l ?h ?c] =>
             destruct (in_range l h c) eqn:?; cbn -[Ascii.eqb in_range]
         | |- context [Ascii.eqb ?k ?c] =>
             destruct (Ascii.eqb k c) eqn:?; cbn -[Ascii.eqb in_range]
         end.

(** The domain regex matches five characters: two digits, a colon, two
    digits; the captures are the two pairs of digits. *)
Lemma exec_rules_hhmm (s : string) :
  exec Rules.hhmm s =
  match s with
  | String a (String b (String c (String x (String y EmptyString)))) =>
      if in_range "0" "9" a && in_range "0" "9" b && Ascii.eqb ":" c
         && in_range "0" "9" x && in_range "0" "9" y
      then Some [Js.two a b; Js.two x y] else None
  | _ => None
  end.
Proof.
  unfold exec.
  destruct s as [ | a [ | b [ | c [ | x [ | y [ | z s]]]]]];
    cbn -[Ascii.eqb in_range]; split_class; reflexivity.
Qed.

(** The schema regex matches five characters: 00..23, a colon, 00..59. *)
Lemma test_schema_hhmm (s : string) :
  test Schema.hhmm s =
  match s with
  | String a (String b (String c (String x (String y EmptyString)))) =>
      (in_range "0" "1" a && in_range "0" "9" b
       || Ascii.eqb "2" a && in_range "0" "3" b)
      && Ascii.eqb ":" c && in_range "0" "5" x && in_range "0" "9" y
  | _ => false
  end.
Proof.
  unfold test, exec.
  destruct s as [ | a [ | b [ | c [ | x [ | y [ | z s]]]]]];
    cbn -[Ascii.eqb in_range]; split_class; reflexivity.
Qed.

Lemma in_range_code (lo hi c : ascii) :
  in_range lo hi c
  = ((Js.code lo <=? Js.code c) && (Js.code c <=? Js.code hi))%N.
Proof. reflexivity. Qed.

Lemma eqb_code (k c : ascii) : Ascii.eqb k c = (Js.code k =? Js.code c)%N.
Proof.
  destruct (Ascii.eqb_spec k c) as [-> | Hne].
  - now rewrite N.eqb_refl.
  - symmetry. apply N.eqb_neq. intros H. apply Hne.
    rewrite <- (ascii_N_embedding k), <- (ascii_N_embedding c).
    unfold Js.code in H. now rewrite H.
Qed.

(** Character tests as linear arithmetic on character codes. *)
Ltac char_arith :=
  rewrite ?in_range_code, ?eqb_code; unfold Js.digitValue;
  cbn [Js.code N_of_ascii N_of_digits N.add N.mul Pos.add Pos.mul Pos.succ];
  repeat match goal with
         | |- context [(?x <=? ?y)%N] => destruct (N.leb_spec x y)
         | |- context [(?x =? ?y)%N] => destruct (N.eqb_spec x y)
         | |- context [(?x >? ?y)%Z] => destruct (Z.gtb_spec x y)
         end;
  cbn [andb orb negb]; try reflexivity; try lia.

Lemma hour_chars (a b : ascii) :
  in_range "0" "1" a && in_range "0" "9" b
  || Ascii.eqb "2" a && in_range "0" "3" b
  = in_range "0" "9" a && in_range "0" "9" b
    && negb (10 * Js.digitValue a + Js.digitValue b >? 23)%Z.
Proof. char_arith. Qed.

Lemma minute_chars (x y : ascii) :
  in_range "0" "5" x && in_range "0" "9" y
  = in_range "0" "9" x && in_range "0" "9" y
    && negb (10 * Js.digitValue x + Js.digitValue y >? 59)%Z.
Proof. char_arith. Qed.

Lemma digit_in_range (c : ascii) :
  in_range "0" "9" c = true -> Js.digit c = Some (Js.digitValue c).
Proof.
  unfold Js.digit. rewrite in_range_code.
  cbn [Js.code N_of_ascii N_of_digits N.add N.mul Pos.add Pos.mul Pos.succ].
  now intros ->.
Qed.

Lemma parseInt_two (a b : ascii) :
  in_range "0" "9" a = true -> in_range "0" "9" b = true ->
  Js.parseInt (Js.two a b) = Some (10 * Js.digitValue a + Js.digitValue b)%Z.
Proof.
  intros Ha Hb. unfold Js.parseInt, Js.two. cbn [Js.digits].
  rewrite (digit_in_range a Ha), (digit_in_range b Hb).
  reflexivity.
Qed.

Lemma parseHHmm_chars (s : string) :
  Rules.parseHHmm s =
  match s with
  | String a (String b (String c (String x (String y EmptyString)))) =>
      if in_range "0" "9" a && in_range "0" "9" b && Ascii.eqb ":" c
         && in_range "0" "9" x && in_range "0" "9" y
      then
        let hours := (10 * Js.digitValue a + Js.digitValue b)%Z in
        let minutes := (10 * Js.digitValue x + Js.digitValue y)%Z in
        if (hours >? 23)%Z || (minutes >? 59)%Z then Num.NaN
        else Some (hours * 60 + minutes)%Z
      else Num.NaN
  | _ => Num.NaN
  end.
Proof.
  unfold Rules.parseHHmm. rewrite exec_rules_hhmm.
  destruct s as [ | a [ | b [ | c [ | x [ | y [ | z s]]]]]]; try reflexivity.
  destruct (in_range "0" "9" a) eqn:Ha; [ | reflexivity].
  destruct (in_range "0" "9" b) eqn:Hb; [ | reflexivity].
  destruct (Ascii.eqb ":" c); [ | reflexivity].
  destruct (in_range "0" "9" x) eqn:Hx; [ | reflexivity].
  destruct (in_range "0" "9" y) eqn:Hy; [ | reflexivity].
  cbn [andb nth]. rewrite (parseInt_two a b Ha Hb), (parseInt_two x y Hx Hy).
  reflexivity.
Qed.

(** C9. A string passes the HH:mm regex of the time-slot schema exactly when
    the domain parser [parseHHmm] returns a number for it rather than NaN. *)
Theorem hhmm_agreement (s : string) :
  Schema.timeField s = negb (Num.isNaN (Rules.parseHHmm s)).
Proof.
  unfold Schema.timeField. rewrite test_schema_hhmm, parseHHmm_chars.
  destruct s as [ | a [ | b [ | c [ | x [ | y [ | z s]]]]]]; try reflexivity.
  rewrite <- !andb_assoc, hour_chars, minute_chars.
  destruct (in_range "0" "9" a), (in_range "0" "9" b), (Ascii.eqb ":" c),
    (in_range "0" "9" x), (in_range "0" "9" y);
    cbn [andb orb negb]; rewrite ?andb_false_r; try reflexivity;
    destruct (_ >? 23)%Z, (_ >? 59)%Z; reflexivity.
Qed.

(** On a string the schema regex accepts, the schema's parser and the domain
    parser return the same minutes. *)
Lemma schema_parseHHmm_agrees (s : string) :
  Schema.timeField s = true -> Schema.parseHHmm s = Rules.parseHHmm s.
Proof.
  rewrite hhmm_agreement, parseHHmm_chars.
  unfold Schema.parseHHmm. rewrite exec_rules_hhmm.
  destruct s as [ | a [ | b [ | c [ | x [ | y [ | z s]]]]]];
    try discriminate.
  destruct (in_range "0" "9" a) eqn:Ha; [ | discriminate].
  destruct (in_range "0" "9" b) eqn:Hb; [ | discriminate].
  destruct (Ascii.eqb ":" c); [ | discriminate].
  destruct (in_range "0" "9" x) eqn:Hx; [ | discriminate].
  destruct (in_range "0" "9" y) eqn:Hy; [ | discriminate].
  cbn [andb nth]. rewrite (parseInt_two a b Ha Hb), (parseInt_two x y Hx Hy).
  cbv zeta. destruct (_ || _); [discriminate | reflexivity].
Qed.

(** The time-slot schema admits exactly the slots on which the first loop of
    the time-slot rule is silent. *)
Lemma TimeSlotSchema_wellFormed (slot : TimeSlot) :
  Schema.TimeSlotSchema slot = Slots.wellFormed slot.
Proof.
  unfold Schema.TimeSlotSchema, Slots.wellFormed, Slots.startOf, Slots.endOf.
  destruct (Schema.timeField (startTime slot)) eqn:Hs.
  - destruct (Schema.timeField (endTime slot)) eqn:He.
    + rewrite (schema_parseHHmm_agrees _ Hs), (schema_parseHHmm_agrees _ He).
      rewrite hhmm_agreement in Hs, He.
      destruct (Rules.parseHHmm (startTime slot)) as [u | ];
        [ | discriminate].
      destruct (Rules.parseHHmm (endTime slot)) as [v | ];
        [ | discriminate].
      simpl. now rewrite Z.gtb_ltb.
    + rewrite hhmm_agreement in He.
      destruct (Rules.parseHHmm (endTime slot)); [discriminate | ].
      now destruct (Rules.parseHHmm (startTime slot)).
  - rewrite hhmm_agreement in Hs.
    now destruct (Rules.parseHHmm (startTime slot)).
Qed.

(** * Overlap detection against the clock *)

Lemma digitOf_in_range (c : ascii) :
  Clock.digitOf c
  = if in_range "0" "9" c then Some (Js.digitValue c) else None.
Proof. destruct c as [[] [] [] [] [] [] [] []]; reflexivity. Qed.

(** The parser of the code returns the minutes the clock reads, and NaN for
    every string that is not a time. *)
Lemma parseHHmm_minutesOf (s : string) :
  Rules.parseHHmm s = Clock.minutesOf s.
Proof.
  rewrite parseHHmm_chars.
  destruct s as [ | a [ | b [ | c [ | x [ | y [ | z s]]]]]]; try reflexivity.
  unfold Clock.minutesOf.
  rewrite !digitOf_in_range, (Ascii.eqb_sym c ":").
  destruct (in_range "0" "9" a), (in_range "0" "9" b), (Ascii.eqb ":" c),
    (in_range "0" "9" x), (in_range "0" "9" y); try reflexivity.
  cbn [andb]. cbv zeta.
  destruct (Z.gtb_spec (10 * Js.digitValue a + Js.digitValue b) 23),
    (Z.gtb_spec (10 * Js.digitValue x + Js.digitValue y) 59),
    (Z.leb_spec (10 * Js.digitValue a + Js.digitValue b) 23),
    (Z.leb_spec (10 * Js.digitValue x + Js.digitValue y) 59);
    try lia; cbn [andb orb]; try reflexivity.
  f_equal. lia.
Qed.

Lemma clock_wellFormed (s : TimeSlot) :
  Clock.wellFormed s = Slots.wellFormed s.
Proof.
  unfold Clock.wellFormed, Slots.wellFormed, Slots.startOf, Slots.endOf.
  now rewrite !parseHHmm_minutesOf.
Qed.

Lemma clock_all_wellFormed (l : list TimeSlot) :
  forallb Clock.wellFormed l = forallb Slots.wellFormed l.
Proof.
  induction l as [ | s l IH]; [reflexivity | ].
  simpl. now rewrite clock_wellFormed, IH.
Qed.

Lemma clock_startsNoLater (a b : TimeSlot) :
  Clock.startsNoLater a b <-> Slots.startsNoLater a b.
Proof.
  unfold Clock.startsNoLater, Slots.startsNoLater, Slots.startOf.
  now rewrite !parseHHmm_minutesOf.
Qed.

Lemma clock_sortedByStart (l : list TimeSlot) :
  Clock.sortedByStart l <-> Slots.sortedByStart l.
Proof.
  unfold Clock.sortedByStart, Slots.sortedByStart.
  split; induction 1 as [ | a l Hl IH Ha]; constructor; auto;
    destruct Ha; constructor; now apply clock_startsNoLater.
Qed.

Lemma clock_overlaps (a b : TimeSlot) :
  Clock.overlaps a b <-> Slots.runsInto a b = true.
Proof.
  unfold Clock.overlaps, Slots.runsInto, Slots.endOf, Slots.startOf.
  rewrite !parseHHmm_minutesOf.
  destruct (Clock.minutesOf (endTime a)) as [x | ],
    (Clock.minutesOf (startTime b)) as [y | ];
    try (split; [tauto | discriminate]).
  rewrite Z.ltb_lt. lia.
Qed.

Lemma clock_adjacentOverlap (l : list TimeSlot) :
  Clock.adjacentOverlap l <-> Slots.adjacentOverlap l.
Proof.
  unfold Clock.adjacentOverlap, Slots.adjacentOverlap.
  split; intros (l1 & a & b & l2 & E & H); exists l1, a, b, l2;
    (split; [exact E | now apply clock_overlaps]).
Qed.

Section OverlapDetection.

Variable Date_parse : string -> Num.number.
Variable Number_toString : float -> string.

Local Abbreviation validateCampaignDraft :=
  (Rules.validateCampaignDraft Date_parse Number_toString).

(** C4. Take a draft all of whose slots are well-formed: valid 24-hour HH:mm
    times, read off the strings, with startTime before endTime.  The sort
    of the code puts its slots in ascending order of start time, and
    OVERLAPPING_TIME_SLOTS is emitted exactly when, in the slots sorted by
    start time ascending (in any such order of them), some adjacent pair
    has the earlier end time strictly greater than the later start time.
    When some slot is malformed the code is not emitted. *)
Theorem overlap_detection (d : CampaignDraft) :
  (forallb Clock.wellFormed (timeSlots d) = true ->
   (Permutation (Rules.sortSlots (timeSlots d)) (timeSlots d)
    /\ Clock.sortedByStart (Rules.sortSlots (timeSlots d)))
   /\ forall sorted,
       Permutation sorted (timeSlots d) ->
       Clock.sortedByStart sorted ->
       In OVERLAPPING_TIME_SLOTS (codes (validateCampaignDraft d))
       <-> Clock.adjacentOverlap sorted)
  /\ (forallb Clock.wellFormed (timeSlots d) = false ->
      ~ In OVERLAPPING_TIME_SLOTS (codes (validateCampaignDraft d))).
Proof.
  rewrite clock_all_wellFormed.
  destruct (overlap_scan_on_parsed_times Date_parse Number_toString d)
    as [Hgood Hbad].
  split; [ | exact Hbad].
  intros Hwf. destruct (Hgood Hwf) as [[HP Hs] Hiff].
  split; [split; [exact HP | now apply clock_sortedByStart] | ].
  intros sorted HP' Hs'.
  rewrite clock_adjacentOverlap. apply (Hiff sorted HP').
  now apply clock_sortedByStart.
Qed.

End OverlapDetection.

(** * The properties on the sample drafts *)

Lemma overlap_detection_witness :
  In OVERLAPPING_TIME_SLOTS
    (codes (Rules.validateCampaignDraft Samples.Date_parse
              Samples.Number_toString
              (Samples.withTimeSlots Samples.validDraft
                 [Samples.slot "11:00" "15:00";
                  Samples.slot "08:00" "12:00"])))
  /\ ~ In OVERLAPPING_TIME_SLOTS
        (codes (Rules.validateCampaignDraft Samples.Date_parse
                  Samples.Number_toString
                  (Samples.withTimeSlots Samples.validDraft
                     [Samples.slot "12:00" "15:00";
                      Samples.slot "08:00" "12:00"]))).
Proof.
  split.
  - apply (proj2 (proj1 (overlap_detection Samples.Date_parse
                           Samples.Number_toString
                           (Samples.withTimeSlots Samples.validDraft
                              [Samples.slot "11:00" "15:00";
                               Samples.slot "08:00" "12:00"])) eq_refl)
             [Samples.slot "08:00" "12:00"; Samples.slot "11:00" "15:00"]).
    + apply perm_swap.
    + repeat constructor. unfold Clock.startsNoLater. simpl. lia.
    + exists [], (Samples.slot "08:00" "12:00"),
        (Samples.slot "11:00" "15:00"), [].
      split; [reflexivity | ]. unfold Clock.overlaps. simpl. lia.
  - intros H.
    apply (proj2 (proj1 (overlap_detection Samples.Date_parse
                           Samples.Number_toString
                           (Samples.withTimeSlots Samples.validDraft
                              [Samples.slot "12:00" "15:00";
                               Samples.slot "08:00" "12:00"])) eq_refl)
             [Samples.slot "08:00" "12:00"; Samples.slot "12:00" "15:00"])
      in H.
    + destruct H as (l1 & a & b & l2 & E & H).
      destruct l1 as [ | x [ | y l1]]; simpl in E.
      * injection E as <- <- _. unfold Clock.overlaps in H. simpl in H. lia.
      * destruct l2; discriminate E.
      * destruct l1; discriminate E.
    + apply perm_swap.
    + repeat constructor. unfold Clock.startsNoLater. simpl. lia.
Defined.

(** The two examples of the specification: overlapping slots, and touching
    slots. *)
Example overlapping_slots :
  codes (Rules.validateCampaignDraft Samples.Date_parse
           Samples.Number_toString
           (Samples.withTimeSlots Samples.validDraft
              [Samples.slot "08:00" "12:00"; Samples.slot "11:00" "15:00"]))
  = [OVERLAPPING_TIME_SLOTS].
Proof. reflexivity. Qed.

Example touching_slots :
  Rules.validateCampaignDraft Samples.Date_parse Samples.Number_toString
    (Samples.withTimeSlots Samples.validDraft
       [Samples.slot "08:00" "12:00"; Samples.slot "12:00" "15:00"])
  = [].
Proof. reflexivity. Qed.

(** A malformed slot silences the overlap scan. *)
Example malformed_slot_no_overlap_scan :
  codes (Rules.validateCampaignDraft Samples.Date_parse
           Samples.Number_toString
           (Samples.withTimeSlots Samples.validDraft
              [Samples.slot "08:00" "12:00"; Samples.slot "11:00" "15:00";
               Samples.slot "25:00" "12:00"]))
  = [INVALID_TIME_FORMAT].
Proof. reflexivity. Qed.

Lemma date_rule_witness :
  Codes.dateCodes
    (Rules.validateCampaignDraft Samples.Date_parse Samples.Number_toString
       (Samples.withDates Samples.validDraft
          "2026-06-30T00:00:00Z" "2026-06-01T00:00:00Z"))
  = [INVALID_DATE_RANGE].
Proof.
  apply (proj1 (proj2 (date_rule Samples.Date_parse Samples.Number_toString
                         (Samples.withDates Samples.validDraft
                            "2026-06-30T00:00:00Z" "2026-06-01T00:00:00Z")))
           1782777600000%Z 1780272000000%Z eq_refl eq_refl).
  lia.
Defined.

Example equal_dates :
  codes (Rules.validateCampaignDraft Samples.Date_parse Samples.Number_toString
           (Samples.withDates Samples.validDraft
              "2026-06-01T00:00:00Z" "2026-06-01T00:00:00Z"))
  = [INVALID_DATE_RANGE].
Proof. reflexivity. Qed.

Example unparseable_date :
  codes (Rules.validateCampaignDraft Samples.Date_parse Samples.Number_toString
           (Samples.withDates Samples.validDraft
              "not-a-date" "2026-06-30T23:59:59Z"))
  = [INVALID_DATE_FORMAT].
Proof. reflexivity. Qed.

Lemma media_rule_witness :
  codes (Rules.validateMediaAsset Samples.Number_toString
           (Samples.withMedia Samples.validDraft "audio" 51%float))
  = [MEDIA_SIZE_EXCEEDS_LIMIT; MEDIA_TYPE_NOT_ALLOWED].
Proof.
  apply (proj1 (proj2 (proj2
           (media_rule Samples.Date_parse Samples.Number_toString
              (Samples.withMedia Samples.validDraft "audio" 51%float))))).
  - reflexivity.
  - simpl. discriminate.
  - simpl. discriminate.
Defined.

Example media_boundary :
  Rules.validateCampaignDraft Samples.Date_parse Samples.Number_toString
    (Samples.withMedia Samples.validDraft "image" 50%float) = []
  /\ codes (Rules.validateCampaignDraft Samples.Date_parse
              Samples.Number_toString
              (Samples.withMedia Samples.validDraft "image" 50.0001%float))
     = [MEDIA_SIZE_EXCEEDS_LIMIT].
Proof. split; reflexivity. Qed.

Lemma blank_screen_ids_pass_witness :
  Rules.validateScreenIds emptyDraft = []
  /\ ~ In EMPTY_SCREEN_SELECTION
         (codes (Rules.validateCampaignDraft Samples.Date_parse
                   Samples.Number_toString emptyDraft)).
Proof.
  apply (proj1 (proj2 (blank_screen_ids_pass Samples.Date_parse
                         Samples.Number_toString)) emptyDraft).
  reflexivity.
Defined.

(** The errors of the draft START_CREATION creates. *)
Example default_draft_errors :
  codes (Rules.validateCampaignDraft Samples.Date_parse Samples.Number_toString
           emptyDraft)
  = [EMPTY_NAME; INVALID_DATE_FORMAT].
Proof. reflexivity. Qed.

(** The end-to-end scenario of the specification. *)
Example end_to_end :
  Run.run Samples.Date_parse Samples.Number_toString Idle
    [Run.Dispatch START_CREATION;
     Run.Dispatch (UPDATE_DRAFT Samples.validDraft);
     Run.Validate;
     Run.Dispatch (PUBLISH "camp-42")]
  = Published "camp-42".
Proof. reflexivity. Qed.

(** * More on the state machine and the use case *)

Section MachineMore.

Variable Date_parse : string -> Num.number.
Variable Number_toString : float -> string.

Local Abbreviation validateCampaignDraft :=
  (Rules.validateCampaignDraft Date_parse Number_toString).
Local Abbreviation validateCampaign :=
  (UseCase.validateCampaign Date_parse Number_toString).
Local Abbreviation runFrom := (Run.run Date_parse Number_toString).
Local Abbreviation gated := (Reading.gated Date_parse Number_toString).
Local Abbreviation perform := (Run.perform Date_parse Number_toString).

(** X1. Every change of status that [transition] makes is one of the nine
    its header lists. *)
Theorem status_changes_allowed (s : CampaignCreationState)
        (e : CampaignEvent) :
  status (transition s e) = status s
  \/ Reading.allowed (status s) (status (transition s e)) = true.
Proof.
  destruct e as [ | d | | [errs | | ] | id | err]; destruct s; simpl; auto.
Qed.

(** X2. A state gets its draft from the state before, from UPDATE_DRAFT, or,
    leaving [idle] on START_CREATION, as the empty draft. *)
Theorem draft_origin (s : CampaignCreationState) (e : CampaignEvent)
        (d : CampaignDraft) :
  Ui.currentDraft (transition s e) = Some d ->
  Ui.currentDraft s = Some d
  \/ e = UPDATE_DRAFT d
  \/ (s = Idle /\ e = START_CREATION /\ d = emptyDraft).
Proof.
  destruct e as [ | d0 | | [errs | | ] | id | err]; destruct s; simpl;
    intros H; try discriminate; auto; injection H as <-; auto.
Qed.

(** X3. [published] is entered by PUBLISH from [ready_to_publish] only, with
    the identifier of the event. *)
Theorem published_entry (s : CampaignCreationState) (e : CampaignEvent)
        (id : string) :
  transition s e = Published id ->
  s = Published id \/ (exists d, s = ReadyToPublish d) /\ e = PUBLISH id.
Proof.
  destruct e as [ | d0 | | [errs | | ] | id0 | err]; destruct s; simpl;
    intros H; try discriminate; auto.
  injection H as ->. right. split; [now exists draft | reflexivity].
Qed.

(** The use case keeps the draft the state carries. *)
Lemma validateCampaign_currentDraft (s : CampaignCreationState) :
  Ui.currentDraft (validateCampaign s) = Ui.currentDraft s.
Proof.
  destruct s; try reflexivity.
  rewrite validateCampaign_editing.
  destruct (validateCampaignDraft draft); reflexivity.
Qed.

(** X4. On an [editing] state whose draft has errors the use case returns
    [invalid] with the same draft and the validator's error list, whole and
    in order. *)
Theorem validateCampaign_reports_errors (d : CampaignDraft) :
  validateCampaignDraft d <> [] ->
  validateCampaign (Editing d) = Invalid d (validateCampaignDraft d).
Proof.
  intros H. rewrite validateCampaign_editing.
  destruct (validateCampaignDraft d); [now elim H | reflexivity].
Qed.

(** X5. The use case is idempotent, never changes the draft a state carries,
    and never ends in [editing]. *)
Theorem validateCampaign_idempotent (s : CampaignCreationState) :
  validateCampaign (validateCampaign s) = validateCampaign s
  /\ Ui.currentDraft (validateCampaign s) = Ui.currentDraft s
  /\ status (validateCampaign s) <> editing.
Proof.
  split; [ | split; [apply validateCampaign_currentDraft | ]].
  - destruct s; try reflexivity.
    rewrite validateCampaign_editing.
    destruct (validateCampaignDraft draft); reflexivity.
  - destruct s; try discriminate.
    rewrite validateCampaign_editing.
    destruct (validateCampaignDraft draft); discriminate.
Qed.

Lemma perform_error (s : CampaignCreationState) (a : Run.action) :
  status s = error -> status (perform s a) = error.
Proof.
  destruct s; try discriminate. intros _.
  destruct a as [[ | d | | r | id | err] | ]; reflexivity.
Qed.

Lemma run_error (l : list Run.action) (s : CampaignCreationState) :
  status s = error -> status (runFrom s l) = error.
Proof.
  unfold Run.run. revert s.
  induction l as [ | a l IH]; simpl; intros s Hs; [exact Hs | ].
  apply IH. now apply perform_error.
Qed.

(** X6. Once a SYSTEM_ERROR is dispatched the run stays in [error]: whatever
    the state before and whatever follows, the state at the end is an error
    state. *)
Theorem error_is_absorbing (l : list Run.action)
        (s : CampaignCreationState) :
  status s = error \/ existsb Reading.isSystemError l = true ->
  status (runFrom s l) = error.
Proof.
  intros [Hs | Hl]; [now apply run_error | ].
  revert s. induction l as [ | a l IH]; [discriminate | ].
  simpl in Hl. intros s. apply orb_true_iff in Hl as [Ha | Hl].
  - destruct a as [[ | d | | r | id | err] | ]; try discriminate.
    change (runFrom s (Run.Dispatch (SYSTEM_ERROR err) :: l))
      with (runFrom (Error err) l).
    now apply run_error.
  - apply (IH Hl).
Qed.

(** X7. [published] is final short of a system error: a run without
    SYSTEM_ERROR leaves a published state as it is. *)
Theorem published_is_final (l : list Run.action) (id : string) :
  existsb Reading.isSystemError l = false ->
  runFrom (Published id) l = Published id.
Proof.
  unfold Run.run.
  induction l as [ | a l IH]; simpl; intros Hl; [reflexivity | ].
  apply orb_false_iff in Hl as [Ha Hl].
  destruct a as [[ | d | | r | id0 | err] | ]; try discriminate;
    now apply IH.
Qed.

Lemma perform_gated (s : CampaignCreationState) (a : Run.action) :
  Reading.external a = true -> gated s -> gated (perform s a).
Proof.
  intros Ha Hs. destruct a as [e | ]; simpl.
  - destruct e as [ | d | | r | id | err]; try discriminate;
      destruct s; simpl in *; auto.
  - destruct s; try exact Hs.
    rewrite validateCampaign_editing.
    destruct (validateCampaignDraft draft) as [ | e0 errs] eqn:E; simpl.
    + exact E.
    + split; [now rewrite E | discriminate].
Qed.

Lemma run_gated (l : list Run.action) (s : CampaignCreationState) :
  forallb Reading.external l = true -> gated s -> gated (runFrom s l).
Proof.
  unfold Run.run. revert s.
  induction l as [ | a l IH]; simpl; intros s Hl Hs; [exact Hs | ].
  apply andb_true_iff in Hl as [Ha Hl].
  apply (IH _ Hl). now apply perform_gated.
Qed.

(** X8. In a run from [idle] in which VALIDATION_RESULT is left to the use
    case, a [ready_to_publish] state carries a draft without errors, an
    [invalid] state carries the errors of its draft, and [conflict_detected]
    is never reached. *)
Theorem validation_gate (l : list Run.action) :
  forallb Reading.external l = true ->
  match runFrom Idle l with
  | ReadyToPublish d => validateCampaignDraft d = []
  | Invalid d errors =>
      errors = validateCampaignDraft d /\ errors <> []
  | ConflictDetected _ => False
  | _ => True
  end.
Proof. intros Hl. now apply (run_gated l Idle Hl). Qed.

(** X9. In such a run a campaign is published only from a state whose draft
    passes every rule. *)
Theorem only_valid_drafts_published (l : list Run.action) (a : Run.action) :
  forallb Reading.external l = true ->
  status (runFrom Idle l) <> published ->
  status (runFrom Idle (l ++ [a])) = published ->
  exists d,
    runFrom Idle l = ReadyToPublish d /\ validateCampaignDraft d = [].
Proof.
  intros Hl Hbefore Hafter.
  pose proof (run_gated l Idle Hl I) as Hg.
  unfold Run.run in *. rewrite fold_left_app in Hafter. simpl in Hafter.
  destruct (fold_left perform l Idle) as [ | d | d | d errs | d | d | id | err]
    eqn:E;
    destruct a as [[ | d0 | | [errs0 | | ] | id0 | err0] | ];
    simpl in Hafter; try discriminate; try (now elim Hbefore);
    try (destruct (validateCampaignDraft d); discriminate).
  exists d. split; [reflexivity | exact Hg].
Qed.

End MachineMore.

(** * More on the name rule *)

Lemma ws2_not_ws1 (a b : N) : Js.ws2 a b = true -> Js.ws1 a = false.
Proof.
  unfold Js.ws2, Js.ws1. intros H. apply andb_true_iff in H as [H _].
  apply N.eqb_eq in H. now subst a.
Qed.

Lemma ws3_not_ws1 (a b c : N) : Js.ws3 a b c = true -> Js.ws1 a = false.
Proof.
  unfold Js.ws3, Js.ws1. intros H.
  destruct (N.leb_spec 9 a), (N.leb_spec a 13), (N.eqb_spec a 32);
    try reflexivity; exfalso;
    repeat (apply orb_true_iff in H as [H | H]);
    repeat (apply andb_true_iff in H as [H ?]);
    apply N.eqb_eq in H; lia.
Qed.

Lemma ws3_not_ws2 (a b c : N) : Js.ws3 a b c = true -> Js.ws2 a b = false.
Proof.
  unfold Js.ws3, Js.ws2. intros H.
  destruct (N.eqb_spec a 194); [ | reflexivity]. exfalso.
  repeat (apply orb_true_iff in H as [H | H]);
    repeat (apply andb_true_iff in H as [H ?]);
    apply N.eqb_eq in H; lia.
Qed.

Lemma blank_app (l1 l2 : list ascii) :
  Reading.blank l1 -> Reading.blank l2 -> Reading.blank (l1 ++ l2).
Proof.
  induction 1; simpl; intros H2;
    [exact H2 | constructor 2 | constructor 3 | constructor 4]; auto.
Qed.

(** Forward stripping eats a blank list whole. *)
Lemma strip_blank (l : list ascii) :
  Reading.blank l -> Js.strip true l = [].
Proof.
  induction 1 as [ | a l Ha _ IH | a b l Hab _ IH | a b c l Habc _ IH].
  - reflexivity.
  - simpl. now rewrite Ha.
  - simpl. now rewrite (ws2_not_ws1 _ _ Hab), Hab.
  - simpl. now rewrite (ws3_not_ws1 _ _ _ Habc), (ws3_not_ws2 _ _ _ Habc), Habc.
Qed.

(** Induction over lists following the three ways [strip] recurses. *)
Lemma strip_ind (P : list ascii -> Prop) :
  P [] ->
  (forall a, P [a]) ->
  (forall a b, P [a; b]) ->
  (forall a b c l,
      P (b :: c :: l) -> P (c :: l) -> P l -> P (a :: b :: c :: l)) ->
  forall l, P l.
Proof.
  intros H0 H1 H2 H3 l.
  assert (H : P l /\ (forall a, P (a :: l)) /\ (forall a b, P (a :: b :: l))).
  { induction l as [ | c l (IH0 & IH1 & IH2)]; [auto | ].
    split; [apply IH1 | ]. split; [intros a; apply IH2 | ].
    intros a b. apply H3; auto. }
  apply H.
Qed.

(** What forward stripping leaves is what it goes on leaving. *)
Lemma strip_fixed (l : list ascii) :
  Js.strip true (Js.strip true l) = Js.strip true l.
Proof.
  induction l as [ | a | a b | a b c l IH1 IH2 IH3] using strip_ind.
  - reflexivity.
  - simpl. destruct (Js.ws1 (Js.code a)) eqn:Ha; [reflexivity | ].
    simpl. now rewrite Ha.
  - simpl. destruct (Js.ws1 (Js.code a)) eqn:Ha.
    + destruct (Js.ws1 (Js.code b)) eqn:Hb; [reflexivity | ].
      simpl. now rewrite Hb.
    + destruct (Js.ws2 (Js.code a) (Js.code b)) eqn:Hab; [reflexivity | ].
      simpl. now rewrite Ha, Hab.
  - change (Js.strip true (a :: b :: c :: l))
      with (if Js.ws1 (Js.code a) then Js.strip true (b :: c :: l)
            else if Js.ws2 (Js.code a) (Js.code b) then Js.strip true (c :: l)
            else if Js.ws3 (Js.code a) (Js.code b) (Js.code c)
                 then Js.strip true l else a :: b :: c :: l).
    destruct (Js.ws1 (Js.code a)) eqn:Ha; [exact IH1 | ].
    destruct (Js.ws2 (Js.code a) (Js.code b)) eqn:Hab; [exact IH2 | ].
    destruct (Js.ws3 (Js.code a) (Js.code b) (Js.code c)) eqn:Habc;
      [exact IH3 | ].
    simpl. now rewrite Ha, Hab, Habc.
Qed.

(** A list that stripping eats whole is blank, read in the direction of
    the stripping. *)
Lemma strip_nil_blank (fwd : bool) (l : list ascii) :
  Js.strip fwd l = [] -> Reading.blank (if fwd then l else rev l).
Proof.
  induction l as [ | a | a b | a b c l IH1 IH2 IH3] using strip_ind.
  - intros _. destruct fwd; constructor.
  - simpl. destruct (Js.ws1 (Js.code a)) eqn:Ha; [ | discriminate].
    intros _. destruct fwd; simpl; now repeat constructor.
  - simpl. destruct (Js.ws1 (Js.code a)) eqn:Ha.
    + destruct (Js.ws1 (Js.code b)) eqn:Hb; [ | discriminate].
      intros _. destruct fwd; simpl; now repeat constructor.
    + destruct fwd.
      * destruct (Js.ws2 (Js.code a) (Js.code b)) eqn:Hab; [ | discriminate].
        intros _. now repeat constructor.
      * destruct (Js.ws2 (Js.code b) (Js.code a)) eqn:Hab; [ | discriminate].
        intros _. simpl. now repeat constructor.
  - change (Js.strip fwd (a :: b :: c :: l))
      with (if Js.ws1 (Js.code a) then Js.strip fwd (b :: c :: l)
            else if (if fwd then Js.ws2 (Js.code a) (Js.code b)
                     else Js.ws2 (Js.code b) (Js.code a))
                 then Js.strip fwd (c :: l)
            else if (if fwd then Js.ws3 (Js.code a) (Js.code b) (Js.code c)
                     else Js.ws3 (Js.code c) (Js.code b) (Js.code a))
                 then Js.strip fwd l else a :: b :: c :: l).
    destruct (Js.ws1 (Js.code a)) eqn:Ha.
    { intros H. specialize (IH1 H). destruct fwd.
      - now constructor.
      - change (rev (a :: b :: c :: l)) with (rev (b :: c :: l) ++ [a])%list.
        apply blank_app; [exact IH1 | now repeat constructor]. }
    destruct fwd.
    + destruct (Js.ws2 (Js.code a) (Js.code b)) eqn:Hab.
      { intros H. constructor 3; auto. }
      destruct (Js.ws3 (Js.code a) (Js.code b) (Js.code c)) eqn:Habc;
        [ | discriminate].
      intros H. constructor 4; auto.
    + destruct (Js.ws2 (Js.code b) (Js.code a)) eqn:Hab.
      { intros H. specialize (IH2 H).
        change (rev (a :: b :: c :: l))
          with ((rev (c :: l) ++ [b]) ++ [a])%list.
        rewrite <- app_assoc. apply blank_app; [exact IH2 | ].
        now repeat constructor. }
      destruct (Js.ws3 (Js.code c) (Js.code b) (Js.code a)) eqn:Habc;
        [ | discriminate].
      intros H. specialize (IH3 H).
      change (rev (a :: b :: c :: l))
        with (((rev l ++ [c]) ++ [b]) ++ [a])%list.
      rewrite <- !app_assoc. apply blank_app; [exact IH3 | ].
      now repeat constructor.
Qed.

(** The trimmed string is empty exactly when the string is blank. *)
Lemma trim_empty (s : string) :
  Js.trim s = EmptyString <-> Reading.blank (list_ascii_of_string s).
Proof.
  unfold Js.trim. split.
  - intros H.
    assert (H' : rev (Js.strip false
                        (rev (Js.strip true (list_ascii_of_string s)))) = []).
    { rewrite <- (list_ascii_of_string_of_list_ascii (rev _)), H.
      reflexivity. }
    apply (f_equal (@rev ascii)) in H'. rewrite rev_involutive in H'.
    simpl in H'. apply (strip_nil_blank false) in H'.
    rewrite rev_involutive in H'. apply strip_blank in H'.
    rewrite strip_fixed in H'. now apply (strip_nil_blank true).
  - intros H. now rewrite (strip_blank _ H).
Qed.

(** * More on the rule validator *)

Section RulesMore.

Variable Date_parse : string -> Num.number.
Variable Number_toString : float -> string.

Local Abbreviation validateDateRange := (Rules.validateDateRange Date_parse).
Local Abbreviation validateMediaAsset :=
  (Rules.validateMediaAsset Number_toString).
Local Abbreviation validateCampaignDraft :=
  (Rules.validateCampaignDraft Date_parse Number_toString).

(** A code in the output of a rule that does not emit it. *)
Ltac other_rule H :=
  first
    [ apply validateName_codes in H
    | apply validateDateRange_codes in H
    | apply validateScreenIds_codes in H
    | apply validateTimeSlots_codes in H; destruct H as [H | H]
    | apply validateMediaAsset_codes in H; destruct H as [H | H] ];
  discriminate H.

Lemma length_zero_empty (s : string) :
  (String.length s =? 0)%nat = true <-> s = EmptyString.
Proof. destruct s; simpl; split; intros H; try discriminate; reflexivity. Qed.

(** The name rule is silent exactly when the name is not blank. *)
Lemma validateName_nil (d : CampaignDraft) :
  Rules.validateName d = []
  <-> ~ Reading.blank (list_ascii_of_string (name d)).
Proof.
  unfold Rules.validateName. rewrite <- trim_empty, <- length_zero_empty.
  destruct (_ =? _)%nat; split; intros H; try discriminate; auto.
  now elim H.
Qed.

(** X10. EMPTY_NAME is emitted exactly when the name is a sequence of
    white-space characters (the empty name included). *)
Theorem name_rule (d : CampaignDraft) :
  In EMPTY_NAME (codes (validateCampaignDraft d))
  <-> Reading.blank (list_ascii_of_string (name d)).
Proof.
  rewrite in_validateCampaignDraft.
  rewrite <- trim_empty, <- length_zero_empty.
  unfold Rules.validateName at 1.
  split.
  - intros [H | [H | [H | [H | H]]]];
      [ | apply validateDateRange_codes in H; discriminate H
        | apply validateScreenIds_codes in H; discriminate H
        | apply validateTimeSlots_codes in H; destruct H; discriminate
        | apply validateMediaAsset_codes in H; destruct H; discriminate ].
    destruct (_ =? _)%nat; [reflexivity | destruct H].
  - intros H. left. rewrite H. simpl. auto.
Qed.

(** *** The order and the number of the errors *)

Lemma StronglySorted_app (A : Type) (R : A -> A -> Prop) (l1 l2 : list A) :
  StronglySorted R l1 -> StronglySorted R l2 ->
  (forall x y, In x l1 -> In y l2 -> R x y) ->
  StronglySorted R (l1 ++ l2).
Proof.
  induction 1 as [ | x l1 Hs IH Hx]; simpl; intros H2 H; [exact H2 | ].
  constructor.
  - apply IH; [exact H2 | ]. intros a b Ha Hb. apply H; [now right | exact Hb].
  - apply Forall_app. split; [exact Hx | ].
    apply Forall_forall. intros y Hy. apply H; [now left | exact Hy].
Qed.

Lemma same_rank_sorted (l : list ValidationErrorCode) (n : nat) :
  (forall c, In c l -> Reading.rank c = n) ->
  StronglySorted Reading.inRuleOrder l.
Proof.
  induction l as [ | c l IH]; intros H; constructor.
  - apply IH. intros x Hx. apply H. now right.
  - apply Forall_forall. intros x Hx. unfold Reading.inRuleOrder.
    rewrite (H c (or_introl eq_refl)), (H x (or_intror Hx)). lia.
Qed.

Lemma validateMediaAsset_sorted (d : CampaignDraft) :
  StronglySorted Reading.inRuleOrder (codes (validateMediaAsset d)).
Proof.
  unfold Rules.validateMediaAsset.
  destruct (PrimFloat.ltb _ _), (_ && _); simpl;
    repeat constructor; unfold Reading.inRuleOrder; simpl; lia.
Qed.

(** X11. The errors come in the order of the rules: name, dates, screens,
    time slots, media size, media type. *)
Theorem errors_in_rule_order (d : CampaignDraft) :
  StronglySorted Reading.inRuleOrder (codes (validateCampaignDraft d)).
Proof.
  rewrite validateCampaignDraft_codes.
  repeat apply StronglySorted_app.
  - apply (same_rank_sorted _ 1). intros c H.
    now rewrite (validateName_codes d c H).
  - apply (same_rank_sorted _ 2). intros c H.
    apply validateDateRange_codes in H. now destruct c.
  - apply (same_rank_sorted _ 3). intros c H.
    now rewrite (validateScreenIds_codes d c H).
  - apply (same_rank_sorted _ 4). intros c H.
    now destruct (validateTimeSlots_codes d c H); subst.
  - apply validateMediaAsset_sorted.
  - intros x y Hx Hy. unfold Reading.inRuleOrder.
    destruct (validateTimeSlots_codes d x Hx);
      destruct (validateMediaAsset_codes _ d y Hy); subst; simpl; lia.
  - intros x y Hx Hy. unfold Reading.inRuleOrder.
    rewrite (validateScreenIds_codes d x Hx).
    apply in_app_iff in Hy as [Hy | Hy].
    + destruct (validateTimeSlots_codes d y Hy); subst; simpl; lia.
    + destruct (validateMediaAsset_codes _ d y Hy); subst; simpl; lia.
  - intros x y Hx Hy. unfold Reading.inRuleOrder.
    apply validateDateRange_codes in Hx.
    repeat apply in_app_iff in Hy as [Hy | Hy].
    + rewrite (validateScreenIds_codes d y Hy). destruct x; try discriminate;
        simpl; lia.
    + destruct (validateTimeSlots_codes d y Hy); subst;
        destruct x; try discriminate; simpl; lia.
    + destruct (validateMediaAsset_codes _ d y Hy); subst;
        destruct x; try discriminate; simpl; lia.
  - intros x y Hx Hy. unfold Reading.inRuleOrder.
    rewrite (validateName_codes d x Hx).
    repeat apply in_app_iff in Hy as [Hy | Hy].
    + apply validateDateRange_codes in Hy. destruct y; try discriminate;
        simpl; lia.
    + rewrite (validateScreenIds_codes d y Hy). simpl; lia.
    + destruct (validateTimeSlots_codes d y Hy); subst; simpl; lia.
    + destruct (validateMediaAsset_codes _ d y Hy); subst; simpl; lia.
Qed.

(** X12. The two date errors never come together, and neither do the two
    time-slot errors: overlaps are reported only for drafts without a
    malformed slot. *)
Theorem exclusive_errors (d : CampaignDraft) :
  ~ (In INVALID_DATE_FORMAT (codes (validateCampaignDraft d))
     /\ In INVALID_DATE_RANGE (codes (validateCampaignDraft d)))
  /\ ~ (In INVALID_TIME_FORMAT (codes (validateCampaignDraft d))
        /\ In OVERLAPPING_TIME_SLOTS (codes (validateCampaignDraft d))).
Proof.
  split; intros [H1 H2]; rewrite in_validateCampaignDraft in H1, H2.
  - assert (H1' : In INVALID_DATE_FORMAT (codes (validateDateRange d))).
    { destruct H1 as [H | [H | [H | [H | H]]]]; [ | exact H | | | ];
        other_rule H. }
    assert (H2' : In INVALID_DATE_RANGE (codes (validateDateRange d))).
    { destruct H2 as [H | [H | [H | [H | H]]]]; [ | exact H | | | ];
        other_rule H. }
    clear H1 H2. unfold Rules.validateDateRange in *.
    destruct (_ || _); [ | destruct (Num.ge _ _)]; simpl in *;
      intuition discriminate.
  - assert (H1' : In INVALID_TIME_FORMAT (codes (Rules.validateTimeSlots d))).
    { destruct H1 as [H | [H | [H | [H | H]]]]; [ | | | exact H | ];
        other_rule H. }
    assert (H2' : In OVERLAPPING_TIME_SLOTS
                    (codes (Rules.validateTimeSlots d))).
    { destruct H2 as [H | [H | [H | [H | H]]]]; [ | | | exact H | ];
        other_rule H. }
    clear H1 H2. unfold Rules.validateTimeSlots in *.
    destruct (flat_map Rules.slotErrors (timeSlots d)) as [ | e l] eqn:E.
    + simpl in H1'. apply overlapErrors_codes in H1'. discriminate.
    + assert (H : In OVERLAPPING_TIME_SLOTS
                     (codes (flat_map Rules.slotErrors (timeSlots d))))
        by (rewrite E; exact H2').
      apply formatErrors_codes in H. discriminate.
Qed.

Lemma count_app (c : ValidationErrorCode) (l1 l2 : list ValidationError) :
  Reading.count c (l1 ++ l2) = (Reading.count c l1 + Reading.count c l2)%nat.
Proof.
  unfold Reading.count, codes. now rewrite map_app, filter_app, length_app.
Qed.

Lemma count_none (c : ValidationErrorCode) (l : list ValidationError) :
  (forall c', In c' (codes l) -> c' <> c) -> Reading.count c l = 0%nat.
Proof.
  intros H. unfold Reading.count. rewrite filter_nil_when; [reflexivity | ].
  intros c' Hc'. specialize (H c' Hc').
  destruct c, c'; try reflexivity; now elim H.
Qed.

Lemma slotErrors_count (s : TimeSlot) :
  Reading.count INVALID_TIME_FORMAT (Rules.slotErrors s)
  = if Slots.wellFormed s then 0%nat else 1%nat.
Proof.
  destruct (Slots.wellFormed s) eqn:E.
  - apply slotErrors_nil in E. now rewrite E.
  - unfold Rules.slotErrors.
    destruct (Num.isNaN _ || Num.isNaN _) eqn:N; [reflexivity | ].
    destruct (Num.ge _ _) eqn:G; [reflexivity | ].
    exfalso.
    assert (H : Rules.slotErrors s = [])
      by (unfold Rules.slotErrors; now rewrite N, G).
    apply slotErrors_nil in H. congruence.
Qed.

Lemma formatErrors_count (l : list TimeSlot) :
  Reading.count INVALID_TIME_FORMAT (flat_map Rules.slotErrors l)
  = List.length (filter (fun s => negb (Slots.wellFormed s)) l).
Proof.
  induction l as [ | s l IH]; [reflexivity | ].
  simpl. rewrite count_app, IH, slotErrors_count.
  now destruct (Slots.wellFormed s).
Qed.

(** X13. There is one INVALID_TIME_FORMAT error for each malformed slot:
    the first loop goes on after an offending slot. *)
Theorem one_format_error_per_malformed_slot (d : CampaignDraft) :
  Reading.count INVALID_TIME_FORMAT (validateCampaignDraft d)
  = List.length (filter (fun s => negb (Slots.wellFormed s)) (timeSlots d)).
Proof.
  unfold Rules.validateCampaignDraft. rewrite !count_app.
  rewrite (count_none _ (Rules.validateName d)),
    (count_none _ (validateDateRange d)),
    (count_none _ (Rules.validateScreenIds d)),
    (count_none _ (validateMediaAsset d)).
  - simpl. rewrite Nat.add_0_r. unfold Rules.validateTimeSlots.
    destruct (flat_map Rules.slotErrors (timeSlots d)) as [ | e l] eqn:E.
    + simpl. rewrite <- formatErrors_count, E.
      apply count_none. intros c H.
      apply overlapErrors_codes in H. now subst c.
    + simpl Nat.eqb. cbv iota. rewrite <- E. apply formatErrors_count.
  - intros c H. now destruct (validateMediaAsset_codes _ d c H); subst.
  - intros c H. now rewrite (validateScreenIds_codes d c H).
  - intros c H. apply validateDateRange_codes in H. now destruct c.
  - intros c H. now rewrite (validateName_codes d c H).
Qed.

(** *** What the overlap scan decides *)

(** On well-formed slots the scan of the sorted slots is silent exactly when
    no two slots share any time. *)
Lemma overlapErrors_apart (l : list TimeSlot) :
  forallb Slots.wellFormed l = true ->
  Rules.overlapErrors (Rules.sortSlots l) = [] <-> Slots.apart l.
Proof.
  intros Hwf.
  assert (Hwf' : forallb Slots.wellFormed (Rules.sortSlots l) = true).
  { apply (forallb_perm _ _ l); [ | exact Hwf].
    apply Permutation_sym, sortSlots_perm. }
  split.
  - intros H. apply (apart_perm (Rules.sortSlots l));
      [apply sortSlots_perm | ].
    apply (sorted_apart _ Hwf' (sortSlots_sorted l Hwf)).
    destruct (Slots.hasAdjacentOverlap (Rules.sortSlots l)) eqn:E;
      [ | reflexivity].
    apply overlapErrors_hasAdjacentOverlap in E. rewrite H in E. destruct E.
  - intros H.
    apply (apart_perm l (Rules.sortSlots l)) in H;
      [ | apply Permutation_sym, sortSlots_perm].
    apply (sorted_apart _ Hwf' (sortSlots_sorted l Hwf)) in H.
    destruct (Rules.overlapErrors (Rules.sortSlots l)) as [ | e errs] eqn:E;
      [reflexivity | ].
    assert (Hin : In (code e) (codes (Rules.overlapErrors (Rules.sortSlots l))))
      by (rewrite E; now left).
    pose proof (overlapErrors_codes _ _ Hin) as Hc. rewrite Hc in Hin.
    apply overlapErrors_hasAdjacentOverlap in Hin. congruence.
Qed.

(** The time-slot rule is silent exactly when every slot is well-formed and
    no two slots share any time. *)
Lemma validateTimeSlots_nil (d : CampaignDraft) :
  Rules.validateTimeSlots d = []
  <-> forallb Slots.wellFormed (timeSlots d) = true
      /\ Slots.apart (timeSlots d).
Proof.
  unfold Rules.validateTimeSlots.
  destruct (flat_map Rules.slotErrors (timeSlots d)) as [ | e l] eqn:E.
  - pose proof (proj1 (formatErrors_nil _) E) as Hwf. simpl.
    rewrite (overlapErrors_apart _ Hwf). tauto.
  - simpl. split; [discriminate | ]. intros [Hwf _].
    apply formatErrors_nil in Hwf. congruence.
Qed.

(** X14. When every slot is well-formed, no OVERLAPPING_TIME_SLOTS error is
    emitted exactly when no two slots of the draft share any time. *)
Theorem no_overlap_error_iff_apart (d : CampaignDraft) :
  forallb Slots.wellFormed (timeSlots d) = true ->
  ~ In OVERLAPPING_TIME_SLOTS (codes (validateCampaignDraft d))
  <-> Slots.apart (timeSlots d).
Proof.
  intros Hwf. rewrite overlap_code_from_slot_rule.
  rewrite <- (overlapErrors_apart _ Hwf).
  unfold Rules.validateTimeSlots.
  rewrite (proj2 (formatErrors_nil _) Hwf). simpl. split.
  - intros H.
    destruct (Rules.overlapErrors _) as [ | e errs] eqn:E; [reflexivity | ].
    exfalso. apply H.
    assert (Hc : code e = OVERLAPPING_TIME_SLOTS).
    { apply (overlapErrors_codes (Rules.sortSlots (timeSlots d))).
      rewrite E. now left. }
    simpl. now left.
  - intros ->. simpl. tauto.
Qed.

(** X15. The verdict of the time-slot rule does not depend on the order in
    which the draft lists its slots. *)
Theorem slot_order_irrelevant (d d' : CampaignDraft) :
  Permutation (timeSlots d) (timeSlots d') ->
  Rules.validateTimeSlots d = [] <-> Rules.validateTimeSlots d' = [].
Proof.
  intros HP. rewrite !validateTimeSlots_nil. split; intros [Hwf Hap]; split.
  - now apply (forallb_perm _ _ _ _ HP).
  - now apply (apart_perm _ _ HP).
  - now apply (forallb_perm _ _ _ _ (Permutation_sym HP)).
  - now apply (apart_perm _ _ (Permutation_sym HP)).
Qed.

Lemma validateDateRange_nil (d : CampaignDraft) :
  validateDateRange d = []
  <-> exists start end_ : Z,
        Date_parse (startDate d) = Some start
        /\ Date_parse (endDate d) = Some end_ /\ (start < end_)%Z.
Proof.
  unfold Rules.validateDateRange.
  destruct (Date_parse (startDate d)) as [x | ],
    (Date_parse (endDate d)) as [y | ]; simpl;
    try (split; [discriminate | intros (? & ? & ? & ? & ?); discriminate]).
  destruct (Z.geb_spec x y); split; try discriminate.
  - intros (? & ? & [= <-] & [= <-] & ?). lia.
  - intros _. exists x, y. repeat split. lia.
  - intros _. reflexivity.
Qed.

Lemma validateMediaAsset_nil (d : CampaignDraft) :
  validateMediaAsset d = []
  <-> Codes.exceedsLimit (sizeInMb (mediaAsset d)) = false
      /\ (type (mediaAsset d) = "image" \/ type (mediaAsset d) = "video").
Proof.
  unfold Rules.validateMediaAsset, Codes.exceedsLimit.
  destruct (PrimFloat.ltb _ _);
    destruct (String.eqb_spec (type (mediaAsset d)) "image");
    destruct (String.eqb_spec (type (mediaAsset d)) "video"); simpl;
    split; try discriminate; try tauto; intros [H1 H2];
    try discriminate; tauto.
Qed.

Lemma validateScreenIds_nil (d : CampaignDraft) :
  Rules.validateScreenIds d = [] <-> screenIds d <> [].
Proof.
  unfold Rules.validateScreenIds.
  destruct (screenIds d); simpl; split; try discriminate; auto.
  intros H. now elim H.
Qed.

(** X16. A draft passes the validator exactly when its name is not blank,
    both dates parse with the start before the end, a screen is selected,
    every slot is well-formed, no two slots share any time, the size is not
    above 50 and the type is "image" or "video". *)
Theorem valid_draft_characterised (d : CampaignDraft) :
  validateCampaignDraft d = []
  <-> ~ Reading.blank (list_ascii_of_string (name d))
      /\ (exists start end_ : Z,
            Date_parse (startDate d) = Some start
            /\ Date_parse (endDate d) = Some end_ /\ (start < end_)%Z)
      /\ screenIds d <> []
      /\ forallb Slots.wellFormed (timeSlots d) = true
      /\ Slots.apart (timeSlots d)
      /\ Codes.exceedsLimit (sizeInMb (mediaAsset d)) = false
      /\ (type (mediaAsset d) = "image" \/ type (mediaAsset d) = "video").
Proof.
  rewrite <- validateName_nil, <- validateDateRange_nil,
    <- validateScreenIds_nil, <- validateMediaAsset_nil.
  unfold Rules.validateCampaignDraft.
  split.
  - intros H.
    apply app_eq_nil in H as [H1 H]. apply app_eq_nil in H as [H2 H].
    apply app_eq_nil in H as [H3 H]. apply app_eq_nil in H as [H4 H5].
    apply validateTimeSlots_nil in H4. tauto.
  - intros (H1 & H2 & H3 & H4 & H4' & H5).
    rewrite H1, H2, H3, (proj2 (validateTimeSlots_nil d) (conj H4 H4')).
    simpl. tauto.
Qed.

End RulesMore.

(** * More on the HH:mm parser *)

Lemma in_range_digit (c : ascii) :
  in_range "0" "9" c = true -> (0 <= Js.digitValue c <= 9)%Z.
Proof.
  rewrite in_range_code. unfold Js.digitValue.
  cbn [Js.code N_of_ascii N_of_digits N.add N.mul Pos.add Pos.mul Pos.succ].
  intros H. apply andb_true_iff in H as [H1 H2].
  apply N.leb_le in H1, H2. lia.
Qed.

Lemma digitValue_inj (a b : ascii) :
  in_range "0" "9" a = true -> in_range "0" "9" b = true ->
  Js.digitValue a = Js.digitValue b -> a = b.
Proof.
  intros Ha Hb H.
  rewrite <- (ascii_N_embedding a), <- (ascii_N_embedding b).
  f_equal. unfold Js.digitValue, Js.code in H. lia.
Qed.

(** The shape of a string that parses and of the value it gets. *)
Lemma parseHHmm_some (s : string) (v : Z) :
  Rules.parseHHmm s = Some v ->
  exists a b x y,
    s = String a (String b (String ":" (String x (String y EmptyString))))
    /\ in_range "0" "9" a = true /\ in_range "0" "9" b = true
    /\ in_range "0" "9" x = true /\ in_range "0" "9" y = true
    /\ (10 * Js.digitValue a + Js.digitValue b <= 23)%Z
    /\ (10 * Js.digitValue x + Js.digitValue y <= 59)%Z
    /\ v = ((10 * Js.digitValue a + Js.digitValue b) * 60
            + (10 * Js.digitValue x + Js.digitValue y))%Z.
Proof.
  rewrite parseHHmm_chars.
  destruct s as [ | a [ | b [ | c [ | x [ | y [ | z s]]]]]]; try discriminate.
  destruct (in_range "0" "9" a) eqn:Ha; [ | discriminate].
  destruct (in_range "0" "9" b) eqn:Hb; [ | discriminate].
  destruct (Ascii.eqb_spec ":" c) as [<- | ]; [ | discriminate].
  destruct (in_range "0" "9" x) eqn:Hx; [ | discriminate].
  destruct (in_range "0" "9" y) eqn:Hy; [ | discriminate].
  cbn [andb]. cbv zeta.
  destruct (Z.gtb_spec (10 * Js.digitValue a + Js.digitValue b) 23);
    [discriminate | ].
  destruct (Z.gtb_spec (10 * Js.digitValue x + Js.digitValue y) 59);
    [discriminate | ].
  cbn [orb]. intros [= <-].
  exists a, b, x, y. repeat split; auto.
Qed.

(** X17. A time that parses lies within the day: between 0 and 1439
    minutes. *)
Theorem parseHHmm_within_day (s : string) (v : Z) :
  Rules.parseHHmm s = Some v -> (0 <= v <= 1439)%Z.
Proof.
  intros H.
  destruct (parseHHmm_some s v H)
    as (a & b & x & y & _ & Ha & Hb & Hx & Hy & Hh & Hm & ->).
  apply in_range_digit in Ha, Hb, Hx, Hy. lia.
Qed.

(** X18. Two strings that parse to the same minute are the same string. *)
Theorem parseHHmm_injective (s s' : string) (v : Z) :
  Rules.parseHHmm s = Some v -> Rules.parseHHmm s' = Some v -> s = s'.
Proof.
  intros H H'.
  destruct (parseHHmm_some s v H)
    as (a & b & x & y & -> & Ha & Hb & Hx & Hy & Hh & Hm & Hv).
  destruct (parseHHmm_some s' v H')
    as (a' & b' & x' & y' & -> & Ha' & Hb' & Hx' & Hy' & Hh' & Hm' & Hv').
  pose proof (in_range_digit _ Ha). pose proof (in_range_digit _ Hb).
  pose proof (in_range_digit _ Hx). pose proof (in_range_digit _ Hy).
  pose proof (in_range_digit _ Ha'). pose proof (in_range_digit _ Hb').
  pose proof (in_range_digit _ Hx'). pose proof (in_range_digit _ Hy').
  rewrite (digitValue_inj a a'), (digitValue_inj b b'),
    (digitValue_inj x x'), (digitValue_inj y y'); auto; lia.
Qed.

(** * The schema against the rules *)

(** X19. The time-slot schema admits a slot exactly when the first loop of
    the time-slot rule has no error for it. *)
Theorem TimeSlotSchema_iff_no_slot_error (slot : TimeSlot) :
  Schema.TimeSlotSchema slot = true <-> Rules.slotErrors slot = [].
Proof. now rewrite TimeSlotSchema_wellFormed, slotErrors_nil. Qed.

Lemma TimeSlotSchema_parsersAgree (s : TimeSlot) :
  Schema.TimeSlotSchema s = true -> Reading.parsersAgree s.
Proof.
  unfold Schema.TimeSlotSchema. intros H.
  apply andb_true_iff in H as [H _]. apply andb_true_iff in H as [H1 H2].
  split; now apply schema_parseHHmm_agrees.
Qed.

Lemma TimeSlotSchema_parses (s : TimeSlot) :
  Schema.TimeSlotSchema s = true -> SchemaRefine.parses s = true.
Proof.
  unfold Schema.TimeSlotSchema, SchemaRefine.parses. intros H.
  apply andb_true_iff in H as [_ H]. apply andb_true_iff in H as [H _].
  exact H.
Qed.

Lemma insertSlot_agree (a : TimeSlot) (l : list TimeSlot) :
  Reading.parsersAgree a -> Forall Reading.parsersAgree l ->
  SchemaRefine.insertSlot a l = Rules.insertSlot a l.
Proof.
  intros [Ha _]. induction 1 as [ | b l [Hb _] _ IH]; [reflexivity | ].
  simpl. unfold SchemaRefine.byStart, Rules.byStart.
  now rewrite Ha, Hb, IH.
Qed.

Lemma sortSlots_agree (l : list TimeSlot) :
  Forall Reading.parsersAgree l -> SchemaRefine.sortSlots l = Rules.sortSlots l.
Proof.
  induction 1 as [ | a l Ha Hl IH]; [reflexivity | ].
  simpl. rewrite IH. apply insertSlot_agree; [exact Ha | ].
  apply (Permutation_Forall (Permutation_sym (sortSlots_perm l))). exact Hl.
Qed.

Lemma scan_agree (l : list TimeSlot) :
  Forall Reading.parsersAgree l ->
  SchemaRefine.scan l = negb (Slots.hasAdjacentOverlap l).
Proof.
  induction 1 as [ | a l [_ Ha] Hl IH]; [reflexivity | ].
  destruct Hl as [ | b l [Hb _] Hl]; [reflexivity | ].
  change (SchemaRefine.scan (a :: b :: l))
    with (if Num.gt (Schema.parseHHmm (endTime a))
                    (Schema.parseHHmm (startTime b))
          then false else SchemaRefine.scan (b :: l)).
  change (Slots.hasAdjacentOverlap (a :: b :: l))
    with (Slots.runsInto a b || Slots.hasAdjacentOverlap (b :: l)).
  rewrite Ha, Hb, IH. unfold Slots.runsInto, Slots.endOf, Slots.startOf.
  destruct (Rules.parseHHmm (endTime a)) as [x | ],
    (Rules.parseHHmm (startTime b)) as [y | ]; simpl; try reflexivity.
  rewrite Z.gtb_ltb. now destruct (y <? x)%Z.
Qed.

Lemma short_no_overlap (l : list TimeSlot) :
  (List.length l <? 2)%nat = true ->
  Slots.hasAdjacentOverlap (Rules.sortSlots l) = false.
Proof. destruct l as [ | a [ | b l]]; try reflexivity. discriminate. Qed.

Section SchemaAgainstRules.

Variable Date_parse : string -> Num.number.
Variable Number_toString : float -> string.

Local Abbreviation validateCampaignDraft :=
  (Rules.validateCampaignDraft Date_parse Number_toString).

(** X20. On slots the time-slot schema admits, the schema's overlap
    refinement fails exactly when the rule validator emits
    OVERLAPPING_TIME_SLOTS. *)
Theorem timeSlotsRefine_agrees (d : CampaignDraft) :
  forallb Schema.TimeSlotSchema (timeSlots d) = true ->
  SchemaRefine.timeSlotsRefine (timeSlots d) = false
  <-> In OVERLAPPING_TIME_SLOTS (codes (validateCampaignDraft d)).
Proof.
  intros H. rewrite forallb_forall in H.
  assert (Hwf : forallb Slots.wellFormed (timeSlots d) = true).
  { apply forallb_forall. intros s Hs.
    rewrite <- TimeSlotSchema_wellFormed. now apply H. }
  assert (Hag : Forall Reading.parsersAgree (timeSlots d)).
  { apply Forall_forall. intros s Hs.
    apply TimeSlotSchema_parsersAgree. now apply H. }
  rewrite overlap_code_from_slot_rule. unfold Rules.validateTimeSlots.
  rewrite (proj2 (formatErrors_nil _) Hwf). simpl.
  rewrite overlapErrors_hasAdjacentOverlap.
  unfold SchemaRefine.timeSlotsRefine.
  destruct (_ <? 2)%nat eqn:E.
  - rewrite (short_no_overlap _ E). split; discriminate.
  - rewrite filter_all_when
      by (intros s Hs; apply TimeSlotSchema_parses; now apply H).
    rewrite (sortSlots_agree _ Hag), scan_agree.
    + now destruct (Slots.hasAdjacentOverlap _).
    + apply (Permutation_Forall
               (Permutation_sym (sortSlots_perm (timeSlots d)))).
      exact Hag.
Qed.

(** X21. The schema's date refinement fails exactly when the rule validator
    emits INVALID_DATE_RANGE; it passes a date that does not parse, for
    which the rule validator emits INVALID_DATE_FORMAT. *)
Theorem datesRefine_agrees (d : CampaignDraft) :
  (SchemaRefine.datesRefine Date_parse (startDate d) (endDate d) = false
   <-> Codes.dateCodes (validateCampaignDraft d) = [INVALID_DATE_RANGE])
  /\ (Codes.dateCodes (validateCampaignDraft d) = [INVALID_DATE_FORMAT] ->
      SchemaRefine.datesRefine Date_parse (startDate d) (endDate d) = true).
Proof.
  rewrite dateCodes_validateCampaignDraft.
  unfold SchemaRefine.datesRefine, Rules.validateDateRange.
  destruct (Date_parse (startDate d)) as [x | ],
    (Date_parse (endDate d)) as [y | ]; simpl;
    try (split; [split; discriminate | reflexivity]).
  rewrite Z.gtb_ltb.
  destruct (Z.geb_spec x y), (Z.ltb_spec x y); try lia; simpl;
    split; try discriminate; split; try discriminate; reflexivity.
Qed.

End SchemaAgainstRules.

(** * The form *)

Section Form.

Variable Date_parse : string -> Num.number.
Variable Number_toString : float -> string.

Local Abbreviation validateCampaignDraft :=
  (Rules.validateCampaignDraft Date_parse Number_toString).
Local Abbreviation act := (Ui.act Date_parse Number_toString).
Local Abbreviation session := (Ui.session Date_parse Number_toString).
Local Abbreviation formState := (Ui.formState Date_parse Number_toString).

Lemma act_formState (s : CampaignCreationState) (g : Ui.gesture) :
  formState s -> formState (act s g).
Proof.
  intros Hs.
  destruct g; destruct s; simpl in *; try tauto; try (now repeat split);
    try (destruct Hs as (H1 & H2 & H3); now repeat split).
  - destruct (validateCampaignDraft draft) as [ | e errs] eqn:E; simpl.
    + now split.
    + repeat split; try apply Hs; [now rewrite E | discriminate].
Qed.

(** X22. Whatever the user does, the form is never in [validating],
    [conflict_detected] or [error]; its draft differs from the empty draft
    in the name and the dates only; in [ready_to_publish] the draft passes
    the validator, in [invalid] the errors shown are those of the draft, and
    a published campaign has the identifier "demo-id". *)
Theorem form_states (l : list Ui.gesture) :
  match session l with
  | Idle => True
  | Editing d => Ui.formDraft d
  | Invalid d errors =>
      Ui.formDraft d /\ errors = validateCampaignDraft d /\ errors <> []
  | ReadyToPublish d => Ui.formDraft d /\ validateCampaignDraft d = []
  | Published id => id = "demo-id"
  | Validating _ | ConflictDetected _ | Error _ => False
  end.
Proof.
  change (formState (session l)). unfold Ui.session.
  assert (H : forall s, formState s -> formState (fold_left act l s)).
  { induction l as [ | g l IH]; simpl; intros s Hs; [exact Hs | ].
    apply IH. now apply act_formState. }
  apply H. exact I.
Qed.

(** X23. Once the form is in [ready_to_publish] the draft can no longer be
    edited: every gesture leaves the state as it is, except the click on
    Publish. *)
Theorem ready_to_publish_is_frozen (d : CampaignDraft) (g : Ui.gesture) :
  g <> Ui.ClickPublish ->
  act (ReadyToPublish d) g = ReadyToPublish d.
Proof. destruct g; intros H; try reflexivity. now elim H. Qed.

End Form.

(** * The further properties on the sample drafts *)

Lemma draft_origin_witness :
  Ui.currentDraft (transition Idle START_CREATION) = Some emptyDraft
  /\ (Ui.currentDraft Idle = Some emptyDraft
      \/ START_CREATION = UPDATE_DRAFT emptyDraft
      \/ (Idle = Idle /\ START_CREATION = START_CREATION
          /\ emptyDraft = emptyDraft)).
Proof.
  split; [reflexivity | ].
  apply (draft_origin Idle START_CREATION emptyDraft). reflexivity.
Defined.

Lemma published_entry_witness :
  ReadyToPublish Samples.mockDraft = Published "test-campaign-id"
  \/ (exists d, ReadyToPublish Samples.mockDraft = ReadyToPublish d)
     /\ PUBLISH "test-campaign-id" = PUBLISH "test-campaign-id".
Proof.
  apply (published_entry (ReadyToPublish Samples.mockDraft)
           (PUBLISH "test-campaign-id") "test-campaign-id").
  reflexivity.
Defined.

Lemma validateCampaign_reports_errors_witness :
  UseCase.validateCampaign Samples.Date_parse Samples.Number_toString
    (Editing emptyDraft)
  = Invalid emptyDraft
      (Rules.validateCampaignDraft Samples.Date_parse Samples.Number_toString
         emptyDraft).
Proof.
  apply (validateCampaign_reports_errors Samples.Date_parse
           Samples.Number_toString emptyDraft).
  vm_compute. discriminate.
Defined.

Lemma error_is_absorbing_witness :
  status (Run.run Samples.Date_parse Samples.Number_toString Idle
            [Run.Dispatch START_CREATION;
             Run.Dispatch
               (SYSTEM_ERROR {| sysMessage := "Database unreachable" |});
             Run.Dispatch (UPDATE_DRAFT Samples.validDraft);
             Run.Validate])
  = error.
Proof.
  apply (error_is_absorbing Samples.Date_parse Samples.Number_toString).
  right. reflexivity.
Defined.

Lemma published_is_final_witness :
  Run.run Samples.Date_parse Samples.Number_toString (Published "camp-42")
    [Run.Dispatch START_CREATION;
     Run.Dispatch (UPDATE_DRAFT Samples.validDraft);
     Run.Validate;
     Run.Dispatch (PUBLISH "camp-43")]
  = Published "camp-42".
Proof.
  apply (published_is_final Samples.Date_parse Samples.Number_toString).
  reflexivity.
Defined.

Lemma validation_gate_witness :
  Rules.validateCampaignDraft Samples.Date_parse Samples.Number_toString
    Samples.validDraft = [].
Proof.
  exact (validation_gate Samples.Date_parse Samples.Number_toString
           [Run.Dispatch START_CREATION;
            Run.Dispatch (UPDATE_DRAFT Samples.validDraft);
            Run.Validate] eq_refl).
Defined.

Lemma only_valid_drafts_published_witness :
  exists d,
    Run.run Samples.Date_parse Samples.Number_toString Idle
      [Run.Dispatch START_CREATION;
       Run.Dispatch (UPDATE_DRAFT Samples.validDraft);
       Run.Validate] = ReadyToPublish d
    /\ Rules.validateCampaignDraft Samples.Date_parse Samples.Number_toString
         d = [].
Proof.
  apply (only_valid_drafts_published Samples.Date_parse
           Samples.Number_toString
           [Run.Dispatch START_CREATION;
            Run.Dispatch (UPDATE_DRAFT Samples.validDraft);
            Run.Validate]
           (Run.Dispatch (PUBLISH "camp-42"))).
  - reflexivity.
  - simpl. discriminate.
  - reflexivity.
Defined.

Lemma no_overlap_error_iff_apart_witness :
  ~ In OVERLAPPING_TIME_SLOTS
      (codes (Rules.validateCampaignDraft Samples.Date_parse
                Samples.Number_toString Samples.validDraft))
  <-> Slots.apart (timeSlots Samples.validDraft).
Proof.
  apply (no_overlap_error_iff_apart Samples.Date_parse
           Samples.Number_toString Samples.validDraft).
  reflexivity.
Defined.

Lemma slot_order_irrelevant_witness :
  Rules.validateTimeSlots
    (Samples.withTimeSlots Samples.validDraft
       [Samples.slot "13:00" "17:00"; Samples.slot "08:00" "12:00"]) = []
  <-> Rules.validateTimeSlots
        (Samples.withTimeSlots Samples.validDraft
           [Samples.slot "08:00" "12:00"; Samples.slot "13:00" "17:00"]) = [].
Proof.
  apply (slot_order_irrelevant
           (Samples.withTimeSlots Samples.validDraft
              [Samples.slot "13:00" "17:00"; Samples.slot "08:00" "12:00"])
           (Samples.withTimeSlots Samples.validDraft
              [Samples.slot "08:00" "12:00"; Samples.slot "13:00" "17:00"])).
  simpl. apply perm_swap.
Defined.

Lemma parseHHmm_within_day_witness : (0 <= 1439 <= 1439)%Z.
Proof. apply (parseHHmm_within_day "23:59" 1439). reflexivity. Defined.

Lemma parseHHmm_injective_witness :
  Rules.parseHHmm "08:00" = Some 480%Z /\ "08:00" = "08:00".
Proof.
  split; [reflexivity | ].
  apply (parseHHmm_injective "08:00" "08:00" 480); reflexivity.
Defined.

Lemma timeSlotsRefine_agrees_witness :
  SchemaRefine.timeSlotsRefine
    [Samples.slot "08:00" "12:00"; Samples.slot "11:00" "15:00"] = false
  <-> In OVERLAPPING_TIME_SLOTS
        (codes (Rules.validateCampaignDraft Samples.Date_parse
                  Samples.Number_toString
                  (Samples.withTimeSlots Samples.validDraft
                     [Samples.slot "08:00" "12:00";
                      Samples.slot "11:00" "15:00"]))).
Proof.
  apply (timeSlotsRefine_agrees Samples.Date_parse Samples.Number_toString
           (Samples.withTimeSlots Samples.validDraft
              [Samples.slot "08:00" "12:00"; Samples.slot "11:00" "15:00"])).
  reflexivity.
Defined.

Lemma datesRefine_agrees_witness :
  SchemaRefine.datesRefine Samples.Date_parse
    "not-a-date" "2026-06-30T23:59:59Z" = true.
Proof.
  apply (proj2 (datesRefine_agrees Samples.Date_parse Samples.Number_toString
                  (Samples.withDates Samples.validDraft
                     "not-a-date" "2026-06-30T23:59:59Z"))).
  reflexivity.
Defined.

Lemma ready_to_publish_is_frozen_witness :
  Ui.act Samples.Date_parse Samples.Number_toString
    (ReadyToPublish Samples.validDraft) (Ui.TypeName "Autumn Sale")
  = ReadyToPublish Samples.validDraft.
Proof.
  apply (ready_to_publish_is_frozen Samples.Date_parse
           Samples.Number_toString).
  discriminate.
Defined.
